(** * The alert engine of the inventory application (pages/alerts.py)

    A shallow embedding of the alert evaluation and acknowledgment code:
    [get_current_alerts], [check_expiry_alerts], [check_stock_alerts],
    [get_alert_settings], [save_alert_settings], [acknowledge_alerts] and
    [send_alert_summary_email], together with the part of the PostgreSQL
    store they touch (the [inventory] and [alert_settings] tables of
    database.py and alerts.py).

    Conventions.
    - A Python [date] is its proleptic Gregorian ordinal ([date.toordinal()]),
      a [Z]; [CURRENT_DATE] of the server and [datetime.now().date()] of the
      client are the same day of one clock reading. The dates of the store
      and of the clock lie in [date.min, date.max]; a sum of a date and a
      [timedelta] that leaves this range is an OverflowError ([date_add]).
    - An evaluation takes one reading of the clock, which gives its day and
      dates its alerts. [acknowledge_alerts] reads the clock anew at each
      UPDATE and stores what it read: it takes its readings from a stream
      [nat -> clock], the k-th UPDATE of a call getting the k-th reading.
    - A row fetched through [cur.fetchall()] is a tuple of dynamically typed
      values, a [list pyval]; [item[i]] is a list lookup.
    - A Python exception is the [Raise] result of the error monad; every
      [try: ... except Exception] of the source is a [match] on it.
    - psycopg2 connections are transactional (autocommit is off and
      database.py never turns it on): statements act on a working copy that
      reaches the store only through [conn.commit()].
    - Text is made of characters with code points below 256; the digit and
      white-space classes are those of Python's [str] on this range, and
      [int] is that of CPython 3.11 with its default limit of 4300 digits.
      The numbers that come out of the store (record numbers, counts,
      settings) are below that size, so [str] of a number never fails.
    - Messages shown through [st.error] and the rows that the audit
      trigger adds to [audit_log] are left out. *)

From Stdlib Require Import ZArith List Ascii String DecimalString Lia.
From Stdlib Require DecimalPos DecimalZ.
From stdpp Require Import base option list strings gmap.

Local Open Scope string_scope.
Local Open Scope list_scope.
Local Open Scope Z_scope.

(** * Python values and string primitives *)

Inductive result (A : Type) : Type :=
| Ok (a : A)
| Raise.
Arguments Ok {A} a.
Arguments Raise {A}.

Definition bind {A B : Type} (m : result A) (k : A -> result B) : result B :=
  match m with
  | Ok a => k a
  | Raise => Raise
  end.

Notation "x <- m ;;; k" := (bind m (fun x => k))
  (at level 100, m at next level, right associativity, only parsing).

(** [for item in items: alerts.append(body item)], where the body may raise *)
Fixpoint for_each {A B : Type} (body : A -> result B) (items : list A)
  : result (list B) :=
  match items with
  | [] => Ok []
  | item :: rest =>
      b <- body item ;;;
      bs <- for_each body rest ;;;
      Ok (b :: bs)
  end.

(** [str(n)] for a Python int *)
Definition str_of_Z (n : Z) : string := NilZero.string_of_int (Z.to_int n).

Definition newline : string := String (ascii_of_nat 10) "".

(** '0'..'9', the characters that [int] reads *)
Definition is_decimal_char (c : ascii) : bool :=
  (48 <=? nat_of_ascii c)%nat && (nat_of_ascii c <=? 57)%nat.

(** The characters that [str.isdigit] accepts: the decimal digits and the
    superscripts two, three and one (U+00B2, U+00B3, U+00B9). *)
Definition is_digit_char (c : ascii) : bool :=
  is_decimal_char c
  || (nat_of_ascii c =? 178)%nat || (nat_of_ascii c =? 179)%nat
  || (nat_of_ascii c =? 185)%nat.

Fixpoint all_digits (s : string) : bool :=
  match s with
  | EmptyString => true
  | String c rest => is_digit_char c && all_digits rest
  end.

(** [s.isdigit()]: non-empty and made of digit characters only *)
Definition isdigit (s : string) : bool :=
  match s with
  | EmptyString => false
  | _ => all_digits s
  end.

Fixpoint all_decimal (s : string) : bool :=
  match s with
  | EmptyString => true
  | String c rest => is_decimal_char c && all_decimal rest
  end.

Fixpoint int_of_digits (acc : Z) (s : string) : Z :=
  match s with
  | EmptyString => acc
  | String c rest => int_of_digits (10 * acc + (Z.of_nat (nat_of_ascii c) - 48)) rest
  end.

(** [sys.get_int_max_str_digits()], by default *)
Definition int_max_str_digits : nat := 4300.

(** [int(s)] for [s] without sign, white space or underscore, as the text
    after [isdigit] is: a ValueError on the empty text, on a character
    that is not a decimal digit, and on more than 4300 digits (leading
    zeros included). *)
Definition int_of_str (s : string) : result Z :=
  match s with
  | EmptyString => Raise
  | _ =>
      if all_decimal s && (String.length s <=? int_max_str_digits)%nat
      then Ok (int_of_digits 0 s)
      else Raise
  end.

(** [c in s] *)
Fixpoint contains_char (c : ascii) (s : string) : bool :=
  match s with
  | EmptyString => false
  | String d rest => if Ascii.eqb c d then true else contains_char c rest
  end.

(** [s.split(c, 1)] when [c in s]: the text before the first [c] and the
    text after it *)
Fixpoint split_once (c : ascii) (s : string) : string * string :=
  match s with
  | EmptyString => (EmptyString, EmptyString)
  | String d rest =>
      if Ascii.eqb c d then (EmptyString, rest)
      else let '(before, after) := split_once c rest in (String d before, after)
  end.

(** [s.replace(a, b)] for one-character [a] and [b] *)
Fixpoint replace_char (a b : ascii) (s : string) : string :=
  match s with
  | EmptyString => EmptyString
  | String d rest => String (if Ascii.eqb a d then b else d) (replace_char a b rest)
  end.

(** [s.split(c)]: always at least one piece *)
Fixpoint split_all (c : ascii) (s : string) : list string :=
  match s with
  | EmptyString => [EmptyString]
  | String d rest =>
      match split_all c rest with
      | piece :: pieces =>
          if Ascii.eqb c d then EmptyString :: piece :: pieces
          else String d piece :: pieces
      | [] => [EmptyString]
      end
  end.

(** The characters that [str.strip] removes: those of [str.isspace]. *)
Definition is_space_char (c : ascii) : bool :=
  let n := nat_of_ascii c in
  ((9 <=? n)%nat && (n <=? 13)%nat) || ((28 <=? n)%nat && (n <=? 32)%nat)
  || (n =? 133)%nat || (n =? 160)%nat.

Fixpoint lstrip (s : string) : string :=
  match s with
  | EmptyString => EmptyString
  | String c rest => if is_space_char c then lstrip rest else s
  end.

Fixpoint rstrip (s : string) : string :=
  match s with
  | EmptyString => EmptyString
  | String c rest =>
      match rstrip rest with
      | EmptyString => if is_space_char c then EmptyString else String c EmptyString
      | kept => String c kept
      end
  end.

(** [s.strip()] *)
Definition strip (s : string) : string := rstrip (lstrip s).

(** ** Dates *)

Definition is_leap (y : Z) : bool :=
  ((y mod 4 =? 0) && negb (y mod 100 =? 0)) || (y mod 400 =? 0).

Definition days_in_month (y m : Z) : Z :=
  if m =? 2 then (if is_leap y then 29 else 28)
  else if (m =? 4) || (m =? 6) || (m =? 9) || (m =? 11) then 30
  else 31.

Definition days_before_year (y : Z) : Z :=
  let p := y - 1 in p * 365 + p / 4 - p / 100 + p / 400.

Fixpoint days_before_month_upto (y : Z) (m : nat) : Z :=
  match m with
  | O => 0
  | S k => days_before_month_upto y k + days_in_month y (Z.of_nat (S k))
  end.

(** [date(y, m, d).toordinal()] *)
Definition toordinal (y m d : Z) : Z :=
  days_before_year y + days_before_month_upto y (Z.to_nat (m - 1)) + d.

(** the month and day of day number [n] (1-based) of year [y], scanning the
    months from [m] *)
Fixpoint month_day (y : Z) (fuel : nat) (m n : Z) : Z * Z :=
  match fuel with
  | O => (m, n)
  | S fuel' =>
      if n <=? days_in_month y m then (m, n)
      else month_day y fuel' (m + 1) (n - days_in_month y m)
  end.

Definition fromordinal (n : Z) : Z * Z * Z :=
  let guess := (n - 1) * 400 / 146097 + 1 in
  let y := if toordinal (guess + 1) 1 1 <=? n then guess + 1
           else if n <? toordinal guess 1 1 then guess - 1
           else guess in
  let '(m, d) := month_day y 11 1 (n - days_before_year y) in
  (y, m, d).

Definition pad (width : nat) (s : string) : string :=
  String.concat "" (repeat "0" (width - String.length s)) +:+ s.

(** [d.isoformat()], also [str(d)]: YYYY-MM-DD *)
Definition date_isoformat (n : Z) : string :=
  let '(y, m, d) := fromordinal n in
  pad 4 (str_of_Z y) +:+ "-" +:+ pad 2 (str_of_Z m) +:+ "-" +:+ pad 2 (str_of_Z d).

Inductive pyval : Type :=
| PyNone
| PyInt (n : Z)
| PyStr (s : string)
| PyDate (ordinal : Z).

(** [str(v)], as an f-string renders [{v}] *)
Definition py_str (v : pyval) : string :=
  match v with
  | PyNone => "None"
  | PyInt n => str_of_Z n
  | PyStr s => s
  | PyDate d => date_isoformat d
  end.

(** [date.min.toordinal()], [date.max.toordinal()] and the largest number
    of days of a [timedelta] *)
Definition date_min : Z := 1.
Definition date_max : Z := 3652059.
Definition timedelta_max_days : Z := 999999999.

(** Whether [d + timedelta(days=days)] is a date. *)
Definition date_add_defined (d days : Z) : bool :=
  (- timedelta_max_days <=? days) && (days <=? timedelta_max_days)
  && (date_min <=? d + days) && (d + days <=? date_max).

(** [d + timedelta(days=days)]: an OverflowError when [days] is more than a
    [timedelta] holds or the sum is not a date *)
Definition date_add (d days : Z) : result Z :=
  if date_add_defined d days then Ok (d + days) else Raise.

(** [(a - b).days]: defined between two dates, a TypeError otherwise *)
Definition days_between (a b : pyval) : result Z :=
  match a, b with
  | PyDate x, PyDate y => Ok (x - y)
  | _, _ => Raise
  end.

(** [item[i]] on a fetched tuple *)
Definition index (item : list pyval) (i : nat) : result pyval :=
  match item !! i with
  | Some v => Ok v
  | None => Raise
  end.

(** * The store *)

(** One reading of the clock, in the renderings the code asks for. *)
Record clock : Type := {
  today : Z;               (* datetime.now().date(), CURRENT_DATE *)
  timestamp : Z;           (* CURRENT_TIMESTAMP, orders the settings rows *)
  isoformat : string;      (* datetime.now().isoformat() *)
  strftime : string        (* datetime.now().strftime('%Y-%m-%d %H:%M:%S') *)
}.

Module Inventory.
(** The columns of [inventory] (database.py, init_database) that the alert
    queries read or write. *)
Record row : Type := {
  id : Z;                                   (* SERIAL PRIMARY KEY *)
  patient_name : string;                    (* VARCHAR NOT NULL *)
  drug_item_name : string;                  (* VARCHAR NOT NULL *)
  expiration_date : option Z;               (* DATE *)
  inventory_number : option string;         (* VARCHAR UNIQUE *)
  location : option string;                 (* VARCHAR *)
  (** Modelled from the spec: the column [acknowledged_alerts] that every
      query of alerts.py names and init_database does not declare: a
      nullable JSONB object from acknowledgment key to timestamp text,
      absent (NULL) until the first acknowledgment. *)
  acknowledged_alerts : option (gmap string string)
}.
End Inventory.

(** The settings dict stored as JSONB: a key that the dict lacks is [None]. *)
Record alert_settings : Type := {
  expiry_warning_days : option Z;
  expiry_critical_days : option Z;
  low_stock_threshold : option Z;
  enable_stock_alerts : option bool;
  enable_email_notifications : option bool;
  notification_recipients : option string;
  notification_frequency : option string
}.

(** [d.get(key, default)] *)
Definition get {A : Type} (field : option A) (default : A) : A :=
  match field with
  | Some v => v
  | None => default
  end.

Record settings_row : Type := {
  settings : alert_settings;
  updated_by : string;
  updated_at : Z
}.

(** The database: [alert_settings_table] is [None] while the table does not
    exist. *)
Record database : Type := {
  inventory : list Inventory.row;
  alert_settings_table : option (list settings_row)
}.

(** ** SQL three-valued logic and the WHERE clauses *)

Definition sql_and (a b : option bool) : option bool :=
  match a, b with
  | Some false, _ | _, Some false => Some false
  | Some true, Some true => Some true
  | _, _ => None
  end.

Definition sql_or (a b : option bool) : option bool :=
  match a, b with
  | Some true, _ | _, Some true => Some true
  | Some false, Some false => Some false
  | _, _ => None
  end.

Definition sql_not (a : option bool) : option bool := negb <$> a.

Definition sql_cmp (cmp : Z -> Z -> bool) (a b : option Z) : option bool :=
  match a, b with
  | Some x, Some y => Some (cmp x y)
  | _, _ => None
  end.

Definition sql_is_null {A : Type} (a : option A) : option bool :=
  Some (match a with Some _ => false | None => true end).

(** [acknowledged_alerts ? key]: does the JSONB object have the key *)
Definition sql_has_key (a : option (gmap string string)) (key : string)
  : option bool :=
  (fun m => bool_decide (is_Some (m !! key))) <$> a.

(** [WHERE cond] keeps the rows on which the condition is true (not false,
    not unknown); rows come back in table order. *)
Definition sql_where (cond : Inventory.row -> option bool)
  (table : list Inventory.row) : list Inventory.row :=
  List.filter (fun r => match cond r with Some true => true | _ => false end) table.

(** [acknowledged_alerts IS NULL OR NOT (acknowledged_alerts ? key)] *)
Definition not_acknowledged (key : string) (r : Inventory.row) : option bool :=
  sql_or (sql_is_null (Inventory.acknowledged_alerts r))
         (sql_not (sql_has_key (Inventory.acknowledged_alerts r) key)).

Definition py_opt_str (s : option string) : pyval :=
  match s with Some t => PyStr t | None => PyNone end.

Definition py_opt_date (d : option Z) : pyval :=
  match d with Some n => PyDate n | None => PyNone end.

(** [SELECT id, patient_name, drug_item_name, expiration_date,
    inventory_number, location] *)
Definition select_columns (r : Inventory.row) : list pyval :=
  [ PyInt (Inventory.id r);
    PyStr (Inventory.patient_name r);
    PyStr (Inventory.drug_item_name r);
    py_opt_date (Inventory.expiration_date r);
    py_opt_str (Inventory.inventory_number r);
    py_opt_str (Inventory.location r) ].

(** [WHERE expiration_date < CURRENT_DATE AND (... 'expired')] *)
Definition expired_condition (now : clock) (r : Inventory.row) : option bool :=
  sql_and (sql_cmp Z.ltb (Inventory.expiration_date r) (Some (today now)))
          (not_acknowledged "expired" r).

(** [WHERE expiration_date <= %s AND expiration_date >= CURRENT_DATE AND
    (... 'expiring_critical')] *)
Definition critical_condition (now : clock) (critical_date : Z)
  (r : Inventory.row) : option bool :=
  sql_and
    (sql_and (sql_cmp Z.leb (Inventory.expiration_date r) (Some critical_date))
             (sql_cmp Z.geb (Inventory.expiration_date r) (Some (today now))))
    (not_acknowledged "expiring_critical" r).

(** [WHERE expiration_date <= %s AND expiration_date > %s AND
    (... 'expiring_warning')] *)
Definition warning_condition (warning_date critical_date : Z)
  (r : Inventory.row) : option bool :=
  sql_and
    (sql_and (sql_cmp Z.leb (Inventory.expiration_date r) (Some warning_date))
             (sql_cmp Z.gtb (Inventory.expiration_date r) (Some critical_date)))
    (not_acknowledged "expiring_warning" r).

(** [WHERE expiration_date >= CURRENT_DATE]: only the records that have not
    expired are counted *)
Definition stock_condition (now : clock) (r : Inventory.row) : option bool :=
  sql_cmp Z.geb (Inventory.expiration_date r) (Some (today now)).

(** * Alerts and settings *)

Module Alert.
(** The alert dict; [days_until_expiry] and [stock_count] are the two
    keys that only one kind of alert has. *)
Record t : Type := {
  id : string;
  record_id : pyval;
  alert_type : string;
  severity : string;
  patient_name : pyval;
  item_name : pyval;
  expiry_date : pyval;
  inventory_number : pyval;
  location : pyval;
  message : string;
  days_until_expiry : option Z;
  stock_count : option Z;
  created_at : clock
}.
End Alert.

Definition get_default_alert_settings : alert_settings :=
  {| expiry_warning_days := Some 30;
     expiry_critical_days := Some 7;
     low_stock_threshold := Some 5;
     enable_stock_alerts := Some true;
     enable_email_notifications := Some false;
     notification_recipients := Some "";
     notification_frequency := Some "Daily" |}.

(** * Connections *)

(** A psycopg2 connection is the working copy of the store that its
    statements read and write. [commit], [rollback] and [close] take the
    connection and the store as it stands, and give the store as they
    leave it. [reachable] says whether the connections that one operation
    opens can be made. *)
Definition connection : Type := database.

(** [get_db_connection()]: [None] when psycopg2 cannot connect. *)
Definition get_db_connection (reachable : bool) (db : database)
  : option connection :=
  if reachable then Some db else None.

(** [conn.commit()]: the working copy becomes the store. *)
Definition commit (conn : connection) (db : database) : database := conn.

(** [conn.rollback()]: the working copy is dropped. *)
Definition rollback (conn : connection) (db : database) : database := db.

(** [conn.close()]: what was not committed is dropped with the connection. *)
Definition close (conn : connection) (db : database) : database := db.

(** [ORDER BY updated_at DESC LIMIT 1]; SQL leaves the choice between equal
    timestamps open, the earlier row is taken here. *)
Fixpoint latest (rows : list settings_row) : option settings_row :=
  match rows with
  | [] => None
  | r :: rest =>
      match latest rest with
      | Some r' => if updated_at r <? updated_at r' then Some r' else Some r
      | None => Some r
      end
  end.

(** [CREATE TABLE IF NOT EXISTS alert_settings (...)] *)
Definition create_alert_settings_table (conn : connection) : connection :=
  {| inventory := inventory conn;
     alert_settings_table := Some (get (alert_settings_table conn) []) |}.

(** Returns the settings and the store as the call leaves it. *)
Definition get_alert_settings (reachable : bool) (db : database)
  : alert_settings * database :=
  match get_db_connection reachable db with
  | None => (get_default_alert_settings, db)
  | Some conn =>
      let conn := create_alert_settings_table conn in
      let result := latest (get (alert_settings_table conn) []) in
      let db := close conn db in
      match result with
      | Some r => (settings r, db)
      | None => (get_default_alert_settings, db)
      end
  end.

(** [INSERT INTO alert_settings (settings, updated_by)]: raises while the
    table does not exist *)
Definition insert_settings (now : clock) (new_settings : alert_settings)
  (username : string) (conn : connection) : result connection :=
  match alert_settings_table conn with
  | None => Raise
  | Some rows =>
      Ok {| inventory := inventory conn;
            alert_settings_table :=
              Some (rows ++ [ {| settings := new_settings;
                                 updated_by := username;
                                 updated_at := timestamp now |} ]) |}
  end.

Definition save_alert_settings (reachable : bool) (now : clock)
  (username : string) (new_settings : alert_settings) (db : database)
  : bool * database :=
  match get_db_connection reachable db with
  | None => (false, db)
  | Some conn =>
      match insert_settings now new_settings username conn with
      | Ok conn => (true, close conn (commit conn db))
      | Raise => (false, close conn (rollback conn db))
      end
  end.

(** * Evaluation *)

(** The body of the loop over [expired_items] (alerts.py, 176-191). *)
Definition expired_alert (now : clock) (item : list pyval) : result Alert.t :=
  i2 <- index item 2 ;;;
  days_expired <- days_between (PyDate (today now)) i2 ;;;
  i0 <- index item 0 ;;;
  i1 <- index item 1 ;;;
  i3 <- index item 3 ;;;
  i4 <- index item 4 ;;;
  Ok {| Alert.id := "expired_" +:+ py_str i0;
        Alert.record_id := i0;
        Alert.alert_type := "Expired";
        Alert.severity := "Critical";
        Alert.patient_name := i1;
        Alert.item_name := i2;
        Alert.expiry_date := i2;
        Alert.inventory_number := i3;
        Alert.location := i4;
        Alert.message := "Item expired " +:+ str_of_Z days_expired +:+ " days ago";
        Alert.days_until_expiry := Some (- days_expired);
        Alert.stock_count := None;
        Alert.created_at := now |}.

(** The body of the loops over [critical_expiry] (203-218) and
    [warning_expiry] (230-245), which differ in the id prefix and the
    severity only. *)
Definition expiring_alert (now : clock) (prefix severity : string)
  (item : list pyval) : result Alert.t :=
  i3 <- index item 3 ;;;
  days_until_expiry <- days_between i3 (PyDate (today now)) ;;;
  i0 <- index item 0 ;;;
  i1 <- index item 1 ;;;
  i2 <- index item 2 ;;;
  i4 <- index item 4 ;;;
  i5 <- index item 5 ;;;
  Ok {| Alert.id := prefix +:+ py_str i0;
        Alert.record_id := i0;
        Alert.alert_type := "Expiring Soon";
        Alert.severity := severity;
        Alert.patient_name := i1;
        Alert.item_name := i2;
        Alert.expiry_date := i3;
        Alert.inventory_number := i4;
        Alert.location := i5;
        Alert.message := "Expires in " +:+ str_of_Z days_until_expiry +:+ " days";
        Alert.days_until_expiry := Some days_until_expiry;
        Alert.stock_count := None;
        Alert.created_at := now |}.

Definition check_expiry_alerts (now : clock) (cur : list Inventory.row)
  (settings : alert_settings) : list Alert.t :=
  let warning_days := get (expiry_warning_days settings) 30 in
  let critical_days := get (expiry_critical_days settings) 7 in
  let attempt :=
    warning_date <- date_add (today now) warning_days ;;;
    critical_date <- date_add (today now) critical_days ;;;
    let expired_items :=
      map select_columns (sql_where (expired_condition now) cur) in
    expired <- for_each (expired_alert now) expired_items ;;;
    let critical_expiry :=
      map select_columns (sql_where (critical_condition now critical_date) cur) in
    critical <- for_each (expiring_alert now "expiring_critical_" "Critical")
                  critical_expiry ;;;
    let warning_expiry :=
      map select_columns
        (sql_where (warning_condition warning_date critical_date) cur) in
    warning <- for_each (expiring_alert now "expiring_warning_" "Warning")
                 warning_expiry ;;;
    Ok (expired ++ critical ++ warning) in
  match attempt with
  | Ok alerts => alerts
  | Raise => []                          (* except Exception: return [] *)
  end.

Definition stock_key (r : Inventory.row) : string * option string :=
  (Inventory.drug_item_name r, Inventory.location r).

(** [SELECT drug_item_name, location, COUNT( * ) FROM inventory
    WHERE expiration_date >= CURRENT_DATE
    GROUP BY drug_item_name, location HAVING COUNT( * ) <= %s];
    NULL locations form one group, as GROUP BY has it. *)
Definition low_stock_query (now : clock) (threshold : Z)
  (cur : list Inventory.row) : list (list pyval) :=
  let counted := sql_where (stock_condition now) cur in
  let groups := remove_dups (map stock_key counted) in
  let count k :=
    Z.of_nat (length (List.filter (fun r => bool_decide (stock_key r = k)) counted)) in
  map (fun k => [PyStr (fst k); py_opt_str (snd k); PyInt (count k)])
      (List.filter (fun k => count k <=? threshold) groups).

(** The body of the loop over [low_stock_items] (275-294). *)
Definition stock_alert (now : clock) (item : list pyval) : result Alert.t :=
  match item with
  | [drug_name; location; PyInt stock_count] =>
      let severity :=
        if stock_count =? 0 then "Critical"
        else if stock_count <=? 2 then "Warning" else "Info" in
      let alert_type :=
        if stock_count =? 0 then "Out of Stock" else "Low Stock" in
      Ok {| Alert.id :=
              replace_char " " "_"
                ("stock_" +:+ py_str drug_name +:+ "_" +:+ py_str location);
            Alert.record_id := PyNone;
            Alert.alert_type := alert_type;
            Alert.severity := severity;
            Alert.patient_name := PyStr "Multiple Patients";
            Alert.item_name := drug_name;
            Alert.expiry_date := PyNone;
            Alert.inventory_number := PyStr "Multiple";
            Alert.location := location;
            Alert.message :=
              if 0 <? stock_count
              then "Only " +:+ str_of_Z stock_count +:+ " items remaining"
              else "Out of stock";
            Alert.days_until_expiry := None;
            Alert.stock_count := Some stock_count;
            Alert.created_at := now |}
  | _ => Raise
  end.

Definition check_stock_alerts (now : clock) (cur : list Inventory.row)
  (settings : alert_settings) : list Alert.t :=
  let low_stock_threshold := get (low_stock_threshold settings) 5 in
  let low_stock_items := low_stock_query now low_stock_threshold cur in
  match for_each (stock_alert now) low_stock_items with
  | Ok alerts => alerts
  | Raise => []
  end.

(** Returns the alerts and the store as the call leaves it. *)
Definition get_current_alerts (reachable : bool) (now : clock) (db : database)
  : list Alert.t * database :=
  match get_db_connection reachable db with
  | None => ([], db)
  | Some conn =>
      let cur := inventory conn in
      let '(settings, db) := get_alert_settings reachable db in
      let expiry_alerts := check_expiry_alerts now cur settings in
      let stock_alerts := check_stock_alerts now cur settings in
      (expiry_alerts ++ stock_alerts, close conn db)
  end.

(** * Acknowledgment *)

(** JSONB [a || b] on two objects: the keys of both, [b] winning on a key
    they share. *)
Definition jsonb_concat (a b : gmap string string) : gmap string string := b ∪ a.

(** [SET acknowledged_alerts =
       COALESCE(acknowledged_alerts, '{}'::jsonb) || %s::jsonb] *)
Definition set_acknowledged (entry : gmap string string) (r : Inventory.row)
  : Inventory.row :=
  {| Inventory.id := Inventory.id r;
     Inventory.patient_name := Inventory.patient_name r;
     Inventory.drug_item_name := Inventory.drug_item_name r;
     Inventory.expiration_date := Inventory.expiration_date r;
     Inventory.inventory_number := Inventory.inventory_number r;
     Inventory.location := Inventory.location r;
     Inventory.acknowledged_alerts :=
       Some (jsonb_concat (get (Inventory.acknowledged_alerts r) ∅) entry) |}.

(** [UPDATE inventory SET ... WHERE id = %s] *)
Definition update_acknowledged (entry : gmap string string) (record_id : Z)
  (table : list Inventory.row) : list Inventory.row :=
  map (fun r => if Inventory.id r =? record_id then set_acknowledged entry r else r)
      table.

(** The parameters of the UPDATE that one iteration of the loop builds
    (alerts.py, 633-643): the JSON object, stamped with the clock reading
    [now] of this iteration, and the record number. [Ok None] when the id
    is passed over; [Raise] when [int(record_id)] raises. *)
Definition acknowledgment_of (now : clock) (alert_id : string)
  : result (option (Z * gmap string string)) :=
  if contains_char "_" alert_id then
    let '(alert_type, record_id) := split_once "_" alert_id in
    if isdigit record_id then
      let acknowledge_key := alert_type +:+ "_acknowledged" in
      let entry : gmap string string := {[ acknowledge_key := isoformat now ]} in
      n <- int_of_str record_id ;;;
      Ok (Some (n, entry))
    else Ok None
  else Ok None.

(** The loop over [alert_ids] on the working copy. [now k] is the reading
    of the clock at the k-th UPDATE of the call: an id that is passed over
    reads no clock. [fault] is the number of UPDATE statements the store
    accepts before one raises, [None] when it accepts all of them. *)
Fixpoint acknowledge_loop (now : nat -> clock) (k : nat)
  (alert_ids : list string) (fault : option nat) (table : list Inventory.row)
  : result (list Inventory.row) :=
  match alert_ids with
  | [] => Ok table
  | alert_id :: rest =>
      match acknowledgment_of (now k) alert_id with
      | Ok (Some (record_id, entry)) =>
          match fault with
          | Some O => Raise
          | _ => acknowledge_loop now (S k) rest (Nat.pred <$> fault)
                   (update_acknowledged entry record_id table)
          end
      | Ok None => acknowledge_loop now k rest fault table
      | Raise => Raise
      end
  end.

Definition acknowledge_alerts (reachable : bool) (fault : option nat)
  (now : nat -> clock) (alert_ids : list string) (db : database)
  : bool * database :=
  match get_db_connection reachable db with
  | None => (false, db)
  | Some conn =>
      match acknowledge_loop now 0 alert_ids fault (inventory conn) with
      | Ok table =>
          let conn := {| inventory := table;
                         alert_settings_table := alert_settings_table conn |} in
          (true, close conn (commit conn db))
      | Raise => (false, close conn (rollback conn db))
      end
  end.

(** * Alert summary *)

Definition indent : string := "            ".

(** [f"- {alert['alert_type']}: {alert['item_name']}
       ({alert['patient_name']}) - {alert['message']}\n"] *)
Definition summary_line (alert : Alert.t) : string :=
  "- " +:+ Alert.alert_type alert +:+ ": " +:+ py_str (Alert.item_name alert)
  +:+ " (" +:+ py_str (Alert.patient_name alert) +:+ ") - "
  +:+ Alert.message alert +:+ newline.

Definition with_severity (severity : string) (alerts : list Alert.t)
  : list Alert.t :=
  List.filter (fun a => String.eqb (Alert.severity a) severity) alerts.

(** [for alert in group[:10]: content += line] *)
Definition append_lines (content : string) (group : list Alert.t) : string :=
  fold_left (fun content alert => content +:+ summary_line alert)
            (firstn 10 group) content.

(** [if len(group) > 10: content += f"... and {len(group) - 10} more
    <what>\n"] *)
Definition append_marker (content : string) (group : list Alert.t)
  (what : string) : string :=
  if (10 <? length group)%nat
  then content +:+ "... and " +:+ str_of_Z (Z.of_nat (length group) - 10)
               +:+ " more " +:+ what +:+ newline
  else content.

Definition summary_header (now : clock) (total critical warning : nat) : string :=
  newline
  +:+ indent +:+ "Inventory Alert Summary - " +:+ strftime now +:+ newline
  +:+ indent +:+ newline
  +:+ indent +:+ "Total Active Alerts: " +:+ str_of_Z (Z.of_nat total) +:+ newline
  +:+ indent +:+ "- Critical: " +:+ str_of_Z (Z.of_nat critical) +:+ newline
  +:+ indent +:+ "- Warnings: " +:+ str_of_Z (Z.of_nat warning) +:+ newline
  +:+ indent +:+ newline
  +:+ indent +:+ "Critical Alerts:" +:+ newline
  +:+ indent.

(** The "Create email content" block of [send_alert_summary_email]
    (alerts.py, 668-701): the subject and the content. *)
Definition summarize (now : clock) (alerts : list Alert.t) : string * string :=
  let subject :=
    "Inventory Alert Summary - " +:+ str_of_Z (Z.of_nat (length alerts))
    +:+ " Active Alerts" in
  let content :=
    match alerts with
    | [] => "Good news! There are currently no active inventory alerts."
    | _ =>
        let critical_alerts := with_severity "Critical" alerts in
        let warning_alerts := with_severity "Warning" alerts in
        let content :=
          summary_header now (length alerts) (length critical_alerts)
                         (length warning_alerts) in
        let content := append_lines content critical_alerts in
        let content := append_marker content critical_alerts "critical alerts" in
        let content := content +:+ newline +:+ "Warning Alerts:" +:+ newline in
        let content := append_lines content warning_alerts in
        let content := append_marker content warning_alerts "warnings" in
        content +:+ newline
        +:+ "Please review the inventory system for detailed information."
    end in
  (subject, content).

(** One call of [send_email(recipient, sender, subject, content)]. *)
Record email : Type := {
  recipient : string;
  sender : string;
  subject : string;
  content : string
}.

(** Returns the e-mails handed to [send_email], in order, and the store as
    the call leaves it. *)
Definition send_alert_summary_email (reachable : bool) (now : clock)
  (alerts : list Alert.t) (db : database) : list email * database :=
  let '(settings, db) := get_alert_settings reachable db in
  if negb (get (enable_email_notifications settings) false)
     || String.eqb (get (notification_recipients settings) "") ""
  then ([], db)
  else
    let recipients :=
      map strip (split_all "," (get (notification_recipients settings) "")) in
    let '(subject, content) := summarize now alerts in
    (map (fun recipient =>
            {| recipient := recipient;
               sender := "inventory-alerts@system.com";
               subject := subject;
               content := content |}) recipients,
     db).

(** * Engine operations *)

Inductive operation : Type :=
| Evaluate (reachable : bool) (now : clock)
| Acknowledge (reachable : bool) (fault : option nat) (now : nat -> clock)
    (alert_ids : list string)
| GetSettings (reachable : bool)
| SaveSettings (reachable : bool) (now : clock) (username : string)
    (new_settings : alert_settings)
| SendSummary (reachable : bool) (now : clock) (alerts : list Alert.t).

Definition run (db : database) (o : operation) : database :=
  match o with
  | Evaluate reachable now => snd (get_current_alerts reachable now db)
  | Acknowledge reachable fault now alert_ids =>
      snd (acknowledge_alerts reachable fault now alert_ids db)
  | GetSettings reachable => snd (get_alert_settings reachable db)
  | SaveSettings reachable now username new_settings =>
      snd (save_alert_settings reachable now username new_settings db)
  | SendSummary reachable now alerts =>
      snd (send_alert_summary_email reachable now alerts db)
  end.

Definition run_all (db : database) (ops : list operation) : database :=
  fold_left run ops db.

(** * Vocabulary of the statements *)

(** The acknowledgment keys of a record; a NULL column has none. *)
Definition keys (r : Inventory.row) : gset string :=
  dom (get (Inventory.acknowledged_alerts r) ∅).

(** [db'] has the records of [db], in the same order, and each of them has
    at least the acknowledgment keys it had in [db]. *)
Definition keys_kept (db db' : database) : Prop :=
  Forall2 (fun r r' => Inventory.id r = Inventory.id r' /\ keys r ⊆ keys r')
          (inventory db) (inventory db').

(** A record with the acknowledgment map replaced. *)
Definition with_acknowledged (m : gmap string string) (r : Inventory.row)
  : Inventory.row :=
  {| Inventory.id := Inventory.id r;
     Inventory.patient_name := Inventory.patient_name r;
     Inventory.drug_item_name := Inventory.drug_item_name r;
     Inventory.expiration_date := Inventory.expiration_date r;
     Inventory.inventory_number := Inventory.inventory_number r;
     Inventory.location := Inventory.location r;
     Inventory.acknowledged_alerts := Some m |}.


(** The UPDATE that an alert id stands for, apart from the timestamp: the
    record number and the acknowledgment key. [Ok None] for an id that is
    passed over, [Raise] for one on which [int] raises. *)
Definition update_of (alert_id : string) : result (option (Z * string)) :=
  if contains_char "_" alert_id then
    if isdigit (snd (split_once "_" alert_id)) then
      n <- int_of_str (snd (split_once "_" alert_id)) ;;;
      Ok (Some (n, fst (split_once "_" alert_id) +:+ "_acknowledged"))
    else Ok None
  else Ok None.

(** An id that the loop gets past: it is passed over, or its record number
    is read. *)
Definition readable (alert_id : string) : bool :=
  match update_of alert_id with
  | Ok _ => true
  | Raise => false
  end.

(** The record numbers of the UPDATE statements that a list of alert ids
    stands for, in order. *)
Definition acknowledged_records (alert_ids : list string) : list Z :=
  omap (fun alert_id =>
          match update_of alert_id with
          | Ok (Some (n, _)) => Some n
          | _ => None
          end) alert_ids.

(** Whether the store accepts as many UPDATE statements as the ids stand
    for. *)
Definition accepted (fault : option nat) (alert_ids : list string) : bool :=
  match fault with
  | None => true
  | Some n => (length (acknowledged_records alert_ids) <=? n)%nat
  end.

(** The table after the UPDATE statements of the ids, the first of them
    stamped with the k-th reading of the clock. *)
Fixpoint acknowledge_steps (now : nat -> clock) (k : nat)
  (alert_ids : list string) (table : list Inventory.row) : list Inventory.row :=
  match alert_ids with
  | [] => table
  | alert_id :: rest =>
      match update_of alert_id with
      | Ok (Some (n, key)) =>
          acknowledge_steps now (S k) rest
            (update_acknowledged {[ key := isoformat (now k) ]} n table)
      | _ => acknowledge_steps now k rest table
      end
  end.

(** The id stands for an UPDATE of a record that is in the store. *)
Definition updates_record (alert_id : string) (db : database) : Prop :=
  exists n key r,
    update_of alert_id = Ok (Some (n, key)) /\
    r ∈ inventory db /\ Inventory.id r = n.

(** A clock that gives the same reading every time, and a clock after [n]
    readings were taken from it. *)
Definition frozen (c : clock) : nat -> clock := fun _ => c.


(** The pieces of a text, put end to end. *)
Definition join (pieces : list string) : string :=
  fold_right String.append "" pieces.

(** The line that stands for the items of a group beyond the tenth. *)
Definition truncation_marker (group : list Alert.t) (what : string) : string :=
  match skipn 10 group with
  | [] => ""
  | omitted =>
      "... and " +:+ str_of_Z (Z.of_nat (length omitted)) +:+ " more " +:+ what
      +:+ newline
  end.

Definition dated (r : Inventory.row) : bool :=
  match Inventory.expiration_date r with
  | Some _ => true
  | None => false
  end.

(** The store without the records whose expiration_date is NULL. *)
Definition without_undated (db : database) : database :=
  {| inventory := List.filter dated (inventory db);
     alert_settings_table := alert_settings_table db |}.

(** The store with only the records whose expiration_date is NULL. *)
Definition only_undated (db : database) : database :=
  {| inventory := List.filter (fun r => negb (dated r)) (inventory db);
     alert_settings_table := alert_settings_table db |}.

(** The alert that the loops over [critical_expiry] and [warning_expiry]
    build for a record. *)
Definition expiring_alert_of (now : clock) (prefix severity : string)
  (r : Inventory.row) : Alert.t :=
  let days := get (Inventory.expiration_date r) 0 - today now in
  {| Alert.id := prefix +:+ str_of_Z (Inventory.id r);
     Alert.record_id := PyInt (Inventory.id r);
     Alert.alert_type := "Expiring Soon";
     Alert.severity := severity;
     Alert.patient_name := PyStr (Inventory.patient_name r);
     Alert.item_name := PyStr (Inventory.drug_item_name r);
     Alert.expiry_date := py_opt_date (Inventory.expiration_date r);
     Alert.inventory_number := py_opt_str (Inventory.inventory_number r);
     Alert.location := py_opt_str (Inventory.location r);
     Alert.message := "Expires in " +:+ str_of_Z days +:+ " days";
     Alert.days_until_expiry := Some days;
     Alert.stock_count := None;
     Alert.created_at := now |}.

(** The alert that the loop over [low_stock_items] builds for a group. *)
Definition stock_alert_of (now : clock) (drug_name : string)
  (location : option string) (stock_count : Z) : Alert.t :=
  {| Alert.id :=
       replace_char " " "_"
         ("stock_" +:+ drug_name +:+ "_" +:+ py_str (py_opt_str location));
     Alert.record_id := PyNone;
     Alert.alert_type := if stock_count =? 0 then "Out of Stock" else "Low Stock";
     Alert.severity :=
       if stock_count =? 0 then "Critical"
       else if stock_count <=? 2 then "Warning" else "Info";
     Alert.patient_name := PyStr "Multiple Patients";
     Alert.item_name := PyStr drug_name;
     Alert.expiry_date := PyNone;
     Alert.inventory_number := PyStr "Multiple";
     Alert.location := py_opt_str location;
     Alert.message :=
       if 0 <? stock_count
       then "Only " +:+ str_of_Z stock_count +:+ " items remaining"
       else "Out of stock";
     Alert.days_until_expiry := None;
     Alert.stock_count := Some stock_count;
     Alert.created_at := now |}.

(** The records that the stock query counts, and the size of a group. *)
Definition counted_records (now : clock) (cur : list Inventory.row)
  : list Inventory.row :=
  sql_where (stock_condition now) cur.

Definition group_size (now : clock) (cur : list Inventory.row)
  (k : string * option string) : Z :=
  Z.of_nat (length (List.filter (fun r => bool_decide (stock_key r = k))
                                (counted_records now cur))).

(** What the queries of the evaluation see of a table: for each record the
    selected columns, the stock key, and the truth of the four WHERE
    conditions. *)
Definition queried (now : clock) (warning_date critical_date : Z)
  (r : Inventory.row)
  : list pyval * (string * option string)
    * (option bool * option bool * option bool * option bool) :=
  (select_columns r, stock_key r,
   (expired_condition now r, critical_condition now critical_date r,
    warning_condition warning_date critical_date r, stock_condition now r)).

Definition same_queried (now : clock) (w c : Z) (t t' : list Inventory.row) : Prop :=
  Forall2 (fun r r' => queried now w c r = queried now w c r') t t'.

(** The rows of the stock query, from the stock keys of the counted
    records alone. *)
Definition low_stock_by_keys (threshold : Z) (ks : list (string * option string))
  : list (list pyval) :=
  let count k :=
    Z.of_nat (length (List.filter (fun k' => bool_decide (k' = k)) ks)) in
  map (fun k => [PyStr (fst k); py_opt_str (snd k); PyInt (count k)])
      (List.filter (fun k => count k <=? threshold) (remove_dups ks)).

(** * Scenarios *)

Definition june_1 : clock :=
  {| today := toordinal 2024 6 1;
     timestamp := 0;
     isoformat := "2024-06-01T09:00:00.250000";
     strftime := "2024-06-01 09:00:00" |}.

(** Five minutes later on the same day. *)
Definition june_1_later : clock :=
  {| today := toordinal 2024 6 1;
     timestamp := 300;
     isoformat := "2024-06-01T09:05:00.750000";
     strftime := "2024-06-01 09:05:00" |}.

(** A clock that shows 09:00 at its first reading and 09:05 at the
    others. *)
Definition ticking : nat -> clock :=
  fun k => match k with O => june_1 | _ => june_1_later end.

(** A record that was never acknowledged. *)
Definition record (id : Z) (patient_name drug_item_name : string)
  (expiration_date : Z) (location : string) : Inventory.row :=
  {| Inventory.id := id;
     Inventory.patient_name := patient_name;
     Inventory.drug_item_name := drug_item_name;
     Inventory.expiration_date := Some expiration_date;
     Inventory.inventory_number := None;
     Inventory.location := Some location;
     Inventory.acknowledged_alerts := None |}.

(** A store with these records and an alert_settings table without rows,
    so that the default settings apply. *)
Definition store (records : list Inventory.row) : database :=
  {| inventory := records; alert_settings_table := Some [] |}.

(** What identifies an alert: id, type, severity, days until expiry and
    stock count. *)
Definition digest (a : Alert.t)
  : string * string * string * option Z * option Z :=
  (Alert.id a, Alert.alert_type a, Alert.severity a,
   Alert.days_until_expiry a, Alert.stock_count a).

(** The timestamp stored under a key of each record, in table order. *)
Definition acknowledged_at (key : string) (db : database)
  : list (option string) :=
  map (fun r => Inventory.acknowledged_alerts r ≫= (fun m => m !! key))
      (inventory db).

Definition expired_7 : Inventory.row :=
  record 7 "Pat" "DrugC" (toordinal 2024 5 31) "LocX".

Definition expiring_2 : Inventory.row :=
  record 2 "Ann" "DrugA" (toordinal 2024 6 5) "LocX".

Definition expiring_42 : Inventory.row :=
  record 42 "Bob" "DrugB" (toordinal 2024 6 20) "LocY".

Definition stock_alerts_off : alert_settings :=
  {| expiry_warning_days := Some 30;
     expiry_critical_days := Some 7;
     low_stock_threshold := Some 5;
     enable_stock_alerts := Some false;
     enable_email_notifications := Some false;
     notification_recipients := None;
     notification_frequency := None |}.

Definition three_of_drug_a : list Inventory.row :=
  [ record 1 "Ann" "DrugA" (toordinal 2025 6 1) "LocX";
    record 2 "Bob" "DrugA" (toordinal 2025 6 1) "LocX";
    record 3 "Cy" "DrugA" (toordinal 2025 6 1) "LocX" ].

(** The alerts that the evaluation of record 2 alone returns. *)
Definition sample_alerts : list Alert.t :=
  fst (get_current_alerts true june_1 (store [expiring_2])).

(** * The pages: active alerts, dashboard, settings, notifications *)

(** [needle in hay] on two strings *)
Fixpoint substring_in (needle hay : string) : bool :=
  String.prefix needle hay
  || match hay with
     | EmptyString => false
     | String _ rest => substring_in needle rest
     end.

(** The options of the "Filter by Alert Type" multiselect, its default
    selection too. *)
Definition alert_type_options : list string :=
  ["Expiring Soon"; "Expired"; "Low Stock"; "Out of Stock"].

(** What [show_active_alerts] puts on the page below the refresh controls
    (alerts.py, 53-92): the all-clear, the no-match note, or the three
    tables by severity, each drawn when it has rows. *)
Inductive active_alerts_view : Type :=
| NoActiveAlerts
| NoMatchingAlerts
| AlertTables (critical_alerts warning_alerts info_alerts : list Alert.t).

(** [[alert for alert in alerts if alert['alert_type'] in alert_types]] *)
Definition filtered_alerts (alert_types : list string) (alerts : list Alert.t)
  : list Alert.t :=
  List.filter (fun alert => bool_decide (Alert.alert_type alert ∈ alert_types))
              alerts.

Definition show_active_alerts (alert_types : list string)
  (alerts : list Alert.t) : active_alerts_view :=
  match alerts with
  | [] => NoActiveAlerts
  | _ =>
      match filtered_alerts alert_types alerts with
      | [] => NoMatchingAlerts
      | filtered =>
          AlertTables (with_severity "Critical" filtered)
                      (with_severity "Warning" filtered)
                      (with_severity "Info" filtered)
      end
  end.

(** The "Acknowledge All" button (alerts.py, 104-107). *)
Definition acknowledge_all (reachable : bool) (fault : option nat)
  (now : nat -> clock) (alert_types : list string) (alerts : list Alert.t)
  (db : database) : bool * database :=
  acknowledge_alerts reachable fault now
    (map Alert.id (filtered_alerts alert_types alerts)) db.

Module Dashboard.
(** The four summary metrics of [show_alert_dashboard] (alerts.py,
    350-353). *)
Record metrics : Type := {
  critical_count : nat;
  warning_count : nat;
  expiry_count : nat;
  stock_count : nat
}.
End Dashboard.

Definition dashboard_metrics (current_alerts : list Alert.t) : Dashboard.metrics :=
  {| Dashboard.critical_count :=
       length (with_severity "Critical" current_alerts);
     Dashboard.warning_count :=
       length (with_severity "Warning" current_alerts);
     Dashboard.expiry_count :=
       length (List.filter (fun a => substring_in "Expir" (Alert.alert_type a))
                           current_alerts);
     Dashboard.stock_count :=
       length (List.filter (fun a => substring_in "Stock" (Alert.alert_type a))
                           current_alerts) |}.

(** [[a for a in current_alerts if 'days_until_expiry' in a]], the points
    of the expiry timeline *)
Definition expiry_timeline (current_alerts : list Alert.t) : list Alert.t :=
  List.filter (fun a => bool_decide (is_Some (Alert.days_until_expiry a)))
              current_alerts.

(** The dict that the "Save Settings" button of [show_alert_settings]
    builds from the widgets (alerts.py, 501-513): the two notification
    keys are added only when e-mail notifications are enabled. *)
Definition new_settings (warning_days critical_days threshold : Z)
  (stock_alerts email_notifications : bool) (recipients frequency : string)
  : alert_settings :=
  {| expiry_warning_days := Some warning_days;
     expiry_critical_days := Some critical_days;
     low_stock_threshold := Some threshold;
     enable_stock_alerts := Some stock_alerts;
     enable_email_notifications := Some email_notifications;
     notification_recipients :=
       if email_notifications then Some recipients else None;
     notification_frequency :=
       if email_notifications then Some frequency else None |}.

Definition test_indent : string := "        ".

(** Returns the e-mails handed to [send_email], in order, and the store as
    the call leaves it. [username] is [st.session_state.username]. *)
Definition send_test_notification (reachable : bool) (now : clock)
  (username : string) (db : database) : list email * database :=
  let '(settings, db) := get_alert_settings reachable db in
  if negb (get (enable_email_notifications settings) false)
     || String.eqb (get (notification_recipients settings) "") ""
  then ([], db)
  else
    let recipients :=
      map strip (split_all "," (get (notification_recipients settings) "")) in
    let subject := "Inventory Alert System - Test Notification" in
    let content :=
      newline
      +:+ test_indent
      +:+ "This is a test notification from the Inventory Alert System."
      +:+ newline
      +:+ test_indent +:+ newline
      +:+ test_indent +:+ "Test sent at: " +:+ strftime now +:+ newline
      +:+ test_indent +:+ "Sent by: " +:+ username +:+ newline
      +:+ test_indent +:+ newline
      +:+ test_indent
      +:+ "If you receive this email, the alert notification system is working correctly."
      +:+ newline
      +:+ test_indent in
    (map (fun recipient =>
            {| recipient := recipient;
               sender := "inventory-alerts@system.com";
               subject := subject;
               content := content |}) recipients,
     db).

(** The "Send Alert Summary" button of [show_notification_settings]
    (alerts.py, 532-535): evaluate, then mail the summary. *)
Definition send_current_summary (reachable : bool) (now : clock)
  (db : database) : list email * database :=
  let '(alerts, db) := get_current_alerts reachable now db in
  send_alert_summary_email reachable now alerts db.

(** ** Vocabulary of the further statements *)

(** The number of occurrences of a character in a text. *)
Fixpoint count_char (c : ascii) (s : string) : nat :=
  match s with
  | EmptyString => 0
  | String d rest => (if Ascii.eqb c d then 1 else 0) + count_char c rest
  end.

(** The columns of a record that the engine reads and never writes. *)
Definition data_columns (r : Inventory.row)
  : Z * string * string * option Z * option string * option string :=
  (Inventory.id r, Inventory.patient_name r, Inventory.drug_item_name r,
   Inventory.expiration_date r, Inventory.inventory_number r,
   Inventory.location r).

(** What an acknowledgment can change of a record apart from the
    timestamps: nothing of the data columns, and the set of keys. *)
Definition acknowledged_shape (r : Inventory.row)
  : Z * string * string * option Z * option string * option string
    * gset string :=
  (data_columns r, keys r).

(** The shape of a record after an UPDATE that merges [key] into record
    [n], and the shapes of a table after the UPDATE of an id. *)
Definition shape_update (key : string) (n : Z)
  (shape : Z * string * string * option Z * option string * option string
           * gset string)
  : Z * string * string * option Z * option string * option string
    * gset string :=
  if shape.1.1.1.1.1.1 =? n then (shape.1, {[ key ]} ∪ shape.2) else shape.

Definition shape_step
  (shapes : list (Z * string * string * option Z * option string
                  * option string * gset string))
  (alert_id : string)
  : list (Z * string * string * option Z * option string * option string
          * gset string) :=
  match update_of alert_id with
  | Ok (Some (n, key)) => map (shape_update key n) shapes
  | _ => shapes
  end.

(** The rows of the alert_settings table, none while it does not exist. *)
Definition settings_rows (db : database) : list settings_row :=
  get (alert_settings_table db) [].

(** The recipients list of both notification functions:
    [[email.strip() for email in settings['notification_recipients'].split(',')]],
    or nothing when notifications are off or no recipient is configured. *)
Definition recipients_of (settings : alert_settings) : list string :=
  if negb (get (enable_email_notifications settings) false)
     || String.eqb (get (notification_recipients settings) "") ""
  then []
  else map strip (split_all "," (get (notification_recipients settings) "")).

(** * Checks of the primitives *)

Example str_of_Z_samples :
  str_of_Z 0 = "0" /\ str_of_Z 42 = "42" /\ str_of_Z (-3) = "-3".
Proof. repeat split; reflexivity. Qed.

Example toordinal_samples :
  toordinal 2024 6 1 = 739038 /\ toordinal 2024 6 5 = 739042 /\
  toordinal 2024 6 20 = 739057 /\ toordinal 1 1 1 = 1.
Proof. repeat split; reflexivity. Qed.

Example date_isoformat_samples :
  date_isoformat 739038 = "2024-06-01" /\ date_isoformat 1 = "0001-01-01" /\
  date_isoformat (toordinal 2023 12 31) = "2023-12-31" /\
  date_isoformat (toordinal 2024 2 29) = "2024-02-29" /\
  date_isoformat (toordinal 2025 1 1) = "2025-01-01".
Proof. repeat split; vm_compute; reflexivity. Qed.

Example split_samples :
  split_once "_" "expiring_critical_7" = ("expiring", "critical_7") /\
  split_once "_" "expired_7" = ("expired", "7") /\
  split_all "," "a@x.org, b@y.org" = ["a@x.org"; " b@y.org"] /\
  strip "  b@y.org " = "b@y.org" /\
  isdigit "007" = true /\ isdigit "" = false /\ isdigit "critical_7" = false /\
  int_of_str "007" = Ok 7 /\ int_of_str "" = Raise /\
  int_of_str "critical_7" = Raise.
Proof. repeat split; reflexivity. Qed.

(** The superscript two is a digit for [isdigit] and not for [int]; a text
    of 4301 digits is not read, one of 4300 is, leading zeros counted. *)
Example int_samples :
  let superscript_two := String (ascii_of_nat 178) "" in
  isdigit superscript_two = true /\ int_of_str superscript_two = Raise /\
  isdigit ("7" +:+ superscript_two) = true /\
  int_of_str ("7" +:+ superscript_two) = Raise /\
  int_of_str (String.concat "" (repeat "0" 4300) +:+ "1") = Raise /\
  int_of_str (String.concat "" (repeat "0" 4299) +:+ "1") = Ok 1.
Proof. repeat split; vm_compute; reflexivity. Qed.

Example date_add_samples :
  toordinal 9999 12 31 = date_max /\
  date_add (toordinal 2024 6 1) 30 = Ok (toordinal 2024 7 1) /\
  date_add (toordinal 2024 6 1) 3000000 = Raise /\
  date_add (toordinal 2024 6 1) (- 739037) = Ok date_min /\
  date_add (toordinal 2024 6 1) (- 739038) = Raise /\
  date_add date_min 1000000000 = Raise /\
  date_add date_max 0 = Ok date_max.
Proof. repeat split; vm_compute; reflexivity. Qed.

(** * What the operations do to the store (C5, C8) *)

Lemma get_alert_settings_store reachable db :
  snd (get_alert_settings reachable db) = db.
Proof.
  unfold get_alert_settings, get_db_connection, close.
  destruct reachable; [|reflexivity].
  simpl. destruct (latest _); reflexivity.
Qed.

Lemma set_acknowledged_keys entry r : keys r ⊆ keys (set_acknowledged entry r).
Proof.
  unfold keys, set_acknowledged, jsonb_concat; simpl.
  rewrite dom_union_L. set_solver.
Qed.

Lemma update_acknowledged_keys entry record_id table :
  Forall2 (fun r r' => Inventory.id r = Inventory.id r' /\ keys r ⊆ keys r')
          table (update_acknowledged entry record_id table).
Proof.
  induction table as [|r table IH]; simpl; constructor; [|exact IH].
  destruct (Inventory.id r =? record_id).
  - split; [reflexivity | apply set_acknowledged_keys].
  - split; [reflexivity | set_solver].
Qed.

Lemma rows_kept_refl table :
  Forall2 (fun r r' => Inventory.id r = Inventory.id r' /\ keys r ⊆ keys r')
          table table.
Proof. induction table; constructor; auto. Qed.

Lemma rows_kept_trans t1 t2 t3 :
  Forall2 (fun r r' => Inventory.id r = Inventory.id r' /\ keys r ⊆ keys r') t1 t2 ->
  Forall2 (fun r r' => Inventory.id r = Inventory.id r' /\ keys r ⊆ keys r') t2 t3 ->
  Forall2 (fun r r' => Inventory.id r = Inventory.id r' /\ keys r ⊆ keys r') t1 t3.
Proof.
  intros H12. revert t3.
  induction H12 as [|r1 r2 t1 t2 [Hid Hk] _ IH]; intros t3 H23.
  - inversion H23; constructor.
  - inversion H23 as [|? r3 ? t3' [Hid' Hk'] Hrest]; subst.
    constructor; [split; [congruence | set_solver] | apply IH; assumption].
Qed.

Lemma acknowledge_loop_keys now alert_ids :
  forall k fault table table',
    acknowledge_loop now k alert_ids fault table = Ok table' ->
    Forall2 (fun r r' => Inventory.id r = Inventory.id r' /\ keys r ⊆ keys r')
            table table'.
Proof.
  induction alert_ids as [|alert_id rest IH]; intros k fault table table'; simpl.
  - intros [= <-]. apply rows_kept_refl.
  - destruct (acknowledgment_of (now k) alert_id) as [[[record_id entry]|]|].
    + destruct fault as [[|n]|]; try discriminate; intros Hloop;
        (eapply rows_kept_trans;
         [apply update_acknowledged_keys | eapply IH; exact Hloop]).
    + apply IH.
    + discriminate.
Qed.

Lemma keys_kept_refl db : keys_kept db db.
Proof. apply rows_kept_refl. Qed.

Lemma keys_kept_trans db1 db2 db3 :
  keys_kept db1 db2 -> keys_kept db2 db3 -> keys_kept db1 db3.
Proof. apply rows_kept_trans. Qed.

Lemma acknowledge_alerts_keys reachable fault now alert_ids db :
  keys_kept db (snd (acknowledge_alerts reachable fault now alert_ids db)).
Proof.
  unfold acknowledge_alerts, get_db_connection, close, commit, rollback.
  destruct reachable; simpl; [|apply keys_kept_refl].
  destruct (acknowledge_loop now 0 alert_ids fault (inventory db))
    as [table|] eqn:Hloop;
    simpl; [|apply keys_kept_refl].
  unfold keys_kept; simpl. eapply acknowledge_loop_keys; exact Hloop.
Qed.

Lemma save_alert_settings_inventory reachable now username new_settings db :
  inventory (snd (save_alert_settings reachable now username new_settings db))
  = inventory db.
Proof.
  unfold save_alert_settings, get_db_connection, insert_settings,
    close, commit, rollback.
  destruct reachable; simpl; [|reflexivity].
  destruct (alert_settings_table db); reflexivity.
Qed.

Lemma get_current_alerts_store reachable now db :
  snd (get_current_alerts reachable now db) = db.
Proof.
  unfold get_current_alerts, get_db_connection, close.
  destruct reachable; [|reflexivity].
  pose proof (get_alert_settings_store true db) as Hs.
  destruct (get_alert_settings true db) as [s db']. simpl in *. congruence.
Qed.

Lemma send_alert_summary_email_store reachable now alerts db :
  snd (send_alert_summary_email reachable now alerts db) = db.
Proof.
  unfold send_alert_summary_email.
  pose proof (get_alert_settings_store reachable db) as Hs.
  destruct (get_alert_settings reachable db) as [s db']. simpl in Hs. subst db'.
  destruct (_ || _); [reflexivity|].
  destruct (summarize now alerts); reflexivity.
Qed.

Lemma run_keys db o : keys_kept db (run db o).
Proof.
  destruct o; simpl.
  - rewrite get_current_alerts_store. apply keys_kept_refl.
  - apply acknowledge_alerts_keys.
  - rewrite get_alert_settings_store. apply keys_kept_refl.
  - unfold keys_kept. rewrite save_alert_settings_inventory. apply rows_kept_refl.
  - rewrite send_alert_summary_email_store. apply keys_kept_refl.
Qed.

(** C5. Over every finite sequence of engine operations (evaluations,
    acknowledgments with or without a store fault, settings reads and saves,
    summary e-mails) every inventory record keeps its place and each key of
    its acknowledged_alerts map: the key set never shrinks. *)
Theorem C5_acknowledged_keys_monotone (db : database) (ops : list operation) :
  keys_kept db (run_all db ops).
Proof.
  unfold run_all. revert db.
  induction ops as [|o ops IH]; intros db; simpl.
  - apply keys_kept_refl.
  - eapply keys_kept_trans; [apply run_keys | apply IH].
Qed.

(** C8. Evaluation is read-only: [get_current_alerts], and the
    [get_alert_settings] it calls, leave the inventory and the settings
    store exactly as they found them, whether or not the store is reachable
    and whether or not the alert_settings table exists (the table that
    [get_alert_settings] creates lives in a transaction that is never
    committed). *)
Theorem C8_evaluation_read_only (reachable : bool) (now : clock) (db : database) :
  snd (get_current_alerts reachable now db) = db /\
  snd (get_alert_settings reachable db) = db.
Proof.
  split; [apply get_current_alerts_store | apply get_alert_settings_store].
Qed.

(** * Acknowledgment, id by id (C3, C4) *)

Lemma acknowledgment_of_update now alert_id :
  acknowledgment_of now alert_id
  = match update_of alert_id with
    | Ok (Some (n, key)) => Ok (Some (n, {[ key := isoformat now ]}))
    | Ok None => Ok None
    | Raise => Raise
    end.
Proof.
  unfold acknowledgment_of, update_of.
  destruct (contains_char "_" alert_id); [|reflexivity].
  destruct (split_once "_" alert_id) as [alert_type record_id]; cbn [fst snd].
  destruct (isdigit record_id); [|reflexivity].
  destruct (int_of_str record_id); reflexivity.
Qed.

(** The loop raises exactly when [int] rejects an id or the store rejects
    an UPDATE; otherwise it runs every UPDATE. *)
Lemma acknowledge_loop_outcome now alert_ids :
  forall k fault table,
    acknowledge_loop now k alert_ids fault table
    = if forallb readable alert_ids && accepted fault alert_ids
      then Ok (acknowledge_steps now k alert_ids table)
      else Raise.
Proof.
  induction alert_ids as [|alert_id rest IH]; intros k fault table.
  - destruct fault; reflexivity.
  - cbn [acknowledge_loop forallb acknowledge_steps].
    rewrite acknowledgment_of_update.
    unfold readable at 1, accepted, acknowledged_records.
    cbn [omap list_omap].
    destruct (update_of alert_id) as [[[n key]|]|]; cbn [andb].
    + destruct fault as [[|m]|].
      * rewrite andb_false_r. reflexivity.
      * cbn [fmap option_fmap option_map Nat.pred]. rewrite IH. reflexivity.
      * cbn [fmap option_fmap option_map]. rewrite IH. reflexivity.
    + rewrite IH. reflexivity.
    + reflexivity.
Qed.

Lemma acknowledge_alerts_outcome reachable fault now alert_ids db :
  acknowledge_alerts reachable fault now alert_ids db
  = if reachable && forallb readable alert_ids && accepted fault alert_ids
    then (true,
          {| inventory := acknowledge_steps now 0 alert_ids (inventory db);
             alert_settings_table := alert_settings_table db |})
    else (false, db).
Proof.
  unfold acknowledge_alerts, get_db_connection, close, commit, rollback.
  destruct reachable; [|reflexivity].
  cbn [andb]. rewrite acknowledge_loop_outcome.
  destruct (forallb readable alert_ids && accepted fault alert_ids); reflexivity.
Qed.




Lemma contains_char_split c s :
  contains_char c s = true ->
  s = fst (split_once c s) +:+ String c (snd (split_once c s)).
Proof.
  induction s as [|d s IH]; simpl; [discriminate|].
  destruct (Ascii.eqb_spec c d) as [->|Hne]; [reflexivity|].
  intros H. destruct (split_once c s) as [before after]; simpl in *.
  transitivity (String d (before +:+ String c after));
    [f_equal; exact (IH H) | reflexivity].
Qed.

Lemma contains_char_append c a b : contains_char c (a +:+ String c b) = true.
Proof.
  induction a as [|d a IH]; simpl.
  - rewrite Ascii.eqb_refl. reflexivity.
  - destruct (Ascii.eqb c d); [reflexivity | exact IH].
Qed.




Lemma set_acknowledged_insert key value r :
  set_acknowledged {[ key := value ]} r
  = with_acknowledged (<[ key := value ]> (get (Inventory.acknowledged_alerts r) ∅)) r.
Proof.
  unfold set_acknowledged, with_acknowledged, jsonb_concat.
  rewrite insert_union_singleton_l. reflexivity.
Qed.

Lemma set_acknowledged_again key v1 v2 r :
  set_acknowledged {[ key := v2 ]} (set_acknowledged {[ key := v1 ]} r)
  = set_acknowledged {[ key := v2 ]} r.
Proof.
  rewrite !set_acknowledged_insert. unfold with_acknowledged; simpl.
  rewrite insert_insert_eq. reflexivity.
Qed.

Lemma update_acknowledged_again key v1 v2 record_id table :
  update_acknowledged {[ key := v2 ]} record_id
    (update_acknowledged {[ key := v1 ]} record_id table)
  = update_acknowledged {[ key := v2 ]} record_id table.
Proof.
  unfold update_acknowledged. rewrite map_map. apply map_ext. intros r.
  destruct (Inventory.id r =? record_id) eqn:Hid.
  - change (Inventory.id (set_acknowledged {[ key := v1 ]} r)) with (Inventory.id r).
    rewrite Hid. apply set_acknowledged_again.
  - rewrite Hid. reflexivity.
Qed.

Lemma update_acknowledged_same entry record_id table :
  Forall (fun r => Inventory.id r = record_id ->
                   set_acknowledged entry r = r) table ->
  update_acknowledged entry record_id table = table.
Proof.
  induction 1 as [|r table Hr _ IH]; simpl; [reflexivity|].
  rewrite IH. destruct (Z.eqb_spec (Inventory.id r) record_id) as [Heq|_].
  - rewrite (Hr Heq). reflexivity.
  - reflexivity.
Qed.

(** An UPDATE whose WHERE clause matches no record changes nothing. *)
Lemma update_acknowledged_absent entry record_id table :
  (forall r, r ∈ table -> Inventory.id r <> record_id) ->
  update_acknowledged entry record_id table = table.
Proof.
  intros Habsent. apply update_acknowledged_same.
  apply Forall_forall. intros r Hr Hid. destruct (Habsent r Hr Hid).
Qed.

(** Two UPDATEs of a record that is in the table leave the same table only
    when they store the same value. *)
Lemma update_acknowledged_value key v1 v2 record_id table :
  (exists r, r ∈ table /\ Inventory.id r = record_id) ->
  update_acknowledged {[ key := v1 ]} record_id table
  = update_acknowledged {[ key := v2 ]} record_id table ->
  v1 = v2.
Proof.
  intros (r & Hr & Hid).
  induction table as [|r0 table IH]; [inversion Hr|].
  cbn [update_acknowledged map]. intros [= Hhead Htail].
  apply elem_of_cons in Hr as [<-|Hr]; [|exact (IH Hr Htail)].
  apply Z.eqb_eq in Hid. rewrite Hid in Hhead.
  apply (f_equal Inventory.acknowledged_alerts) in Hhead.
  unfold set_acknowledged, jsonb_concat in Hhead; cbn in Hhead.
  injection Hhead as Hmaps.
  apply (f_equal (fun m : gmap string string => m !! key)) in Hmaps.
  rewrite !lookup_union_l' in Hmaps
    by (rewrite lookup_singleton_eq; eexists; reflexivity).
  rewrite !lookup_singleton_eq in Hmaps. congruence.
Qed.

Lemma update_acknowledged_same_keys key v1 v2 record_id table :
  Forall2 (fun r r' => keys r = keys r')
    (update_acknowledged {[ key := v1 ]} record_id table)
    (update_acknowledged {[ key := v2 ]} record_id table).
Proof.
  induction table as [|r table IH]; simpl; constructor; [|exact IH].
  destruct (Inventory.id r =? record_id); [|reflexivity].
  unfold keys, set_acknowledged, jsonb_concat; simpl.
  rewrite !dom_union_L, !dom_singleton_L. reflexivity.
Qed.

Lemma same_keys_refl table :
  Forall2 (fun r r' => keys r = keys r') table table.
Proof. induction table; constructor; auto. Qed.

(** One id, acknowledged again: the second UPDATE takes the place of the
    first. *)
Lemma acknowledge_steps_again now1 now2 alert_id table :
  acknowledge_steps now2 0 [alert_id] (acknowledge_steps now1 0 [alert_id] table)
  = acknowledge_steps now2 0 [alert_id] table.
Proof.
  cbn [acknowledge_steps].
  destruct (update_of alert_id) as [[[n key]|]|]; try reflexivity.
  apply update_acknowledged_again.
Qed.





(** The digits of an id can pass [isdigit] and still be refused by [int]:
    the batch is then rolled back, the UPDATE of "expired_7" with it. *)
Example unreadable_id_rolls_back :
  let superscript_two := String (ascii_of_nat 178) "" in
  let alert_ids := ["expired_7"; "expired_" +:+ superscript_two] in
  forallb readable alert_ids = false /\
  acknowledge_alerts true None (frozen june_1) alert_ids (store [expired_7])
  = (false, store [expired_7]).
Proof. split; vm_compute; reflexivity. Qed.

(** C4 as first stated fails: the second acknowledgment of "expired_7",
    five minutes after the first, replaces the stored timestamp, so the
    map is not what it was after the first call. *)
Lemma C4_second_call_rewrites_timestamp :
  let once :=
    snd (acknowledge_alerts true None (frozen june_1) ["expired_7"]
           (store [expired_7])) in
  let twice :=
    snd (acknowledge_alerts true None (frozen june_1_later) ["expired_7"] once) in
  acknowledged_at "expired_acknowledged" once
  = [Some "2024-06-01T09:00:00.250000"] /\
  acknowledged_at "expired_acknowledged" twice
  = [Some "2024-06-01T09:05:00.750000"] /\
  twice <> once.
Proof.
  cbv zeta. split; [vm_compute; reflexivity|]. split; [vm_compute; reflexivity|].
  intros Hsame.
  apply (f_equal (acknowledged_at "expired_acknowledged")) in Hsame.
  vm_compute in Hsame. discriminate Hsame.
Qed.

(** C4 (as amended). Acknowledging one id twice in a row leaves the store
    as a single acknowledgment made at the time of the second call leaves
    it, and returns what that call returns: True, unless [int] refuses
    the digits of the id, in which case both calls return False and
    change nothing. The second call adds no key and overwrites the
    timestamp of the key it names with its own, so it is a no-op exactly
    when both calls read the same timestamp or the id updates no record
    of the store (it is passed over, its digits are refused, or no record
    has its number). *)
Theorem C4_acknowledge_twice (now1 now2 : nat -> clock) (alert_id : string)
  (db : database) :
  let once := snd (acknowledge_alerts true None now1 [alert_id] db) in
  let twice := acknowledge_alerts true None now2 [alert_id] once in
  twice = acknowledge_alerts true None now2 [alert_id] db /\
  fst twice = readable alert_id /\
  Forall2 (fun r r' => keys r = keys r') (inventory once) (inventory (snd twice)) /\
  (snd twice = once <->
   isoformat (now1 0%nat) = isoformat (now2 0%nat) \/ ~ updates_record alert_id db).
Proof.
  cbv zeta. rewrite !acknowledge_alerts_outcome.
  cbn [andb accepted forallb]. rewrite !andb_true_r.
  unfold updates_record.
  destruct (readable alert_id) eqn:Hreadable; cbn [fst snd inventory alert_settings_table].
  - rewrite acknowledge_steps_again.
    split; [reflexivity|]. split; [reflexivity|].
    cbn [acknowledge_steps].
    destruct (update_of alert_id) as [[[n key]|]|] eqn:Hupdate.
    + split; [apply update_acknowledged_same_keys|]. split.
      * intros Hsame.
        destruct (decide (isoformat (now1 0%nat) = isoformat (now2 0%nat)))
          as [Heq|Hne]; [left; exact Heq | right].
        intros (n' & key' & r & [= <- <-] & Hr & Hid).
        apply Hne. injection Hsame as Hsame. symmetry.
        eapply update_acknowledged_value; [|exact Hsame].
        exists r. split; assumption.
      * intros [Heq|Habsent].
        -- rewrite Heq. reflexivity.
        -- rewrite !update_acknowledged_absent; [reflexivity| |];
             intros r Hr Hid; apply Habsent;
             exists n, key, r; repeat split; assumption.
    + split; [apply same_keys_refl|]. split; [|reflexivity].
      intros _. right. intros (n & key & r & [=] & _).
    + unfold readable in Hreadable. rewrite Hupdate in Hreadable. discriminate.
  - split; [reflexivity|]. split; [reflexivity|].
    split; [apply same_keys_refl|]. split; [|reflexivity].
    intros _. right. intros (n & key & r & Hupdate & _).
    unfold readable in Hreadable. rewrite Hupdate in Hreadable. discriminate.
Qed.

Lemma C4_acknowledge_twice_witness :
  updates_record "expired_7" (store [expired_7]) /\
  ~ updates_record "expired_8" (store [expired_7]) /\
  snd (acknowledge_alerts true None (frozen june_1) ["expired_7"]
         (snd (acknowledge_alerts true None (frozen june_1) ["expired_7"]
                 (store [expired_7]))))
  = snd (acknowledge_alerts true None (frozen june_1) ["expired_7"]
           (store [expired_7])) /\
  snd (acknowledge_alerts true None (frozen june_1_later) ["expired_8"]
         (snd (acknowledge_alerts true None (frozen june_1) ["expired_8"]
                 (store [expired_7]))))
  = snd (acknowledge_alerts true None (frozen june_1) ["expired_8"]
           (store [expired_7])) /\
  snd (acknowledge_alerts true None (frozen june_1_later) ["expired_7"]
         (snd (acknowledge_alerts true None (frozen june_1) ["expired_7"]
                 (store [expired_7]))))
  <> snd (acknowledge_alerts true None (frozen june_1) ["expired_7"]
            (store [expired_7])).
Proof.
  assert (Hpresent : updates_record "expired_7" (store [expired_7])).
  { exists 7, "expired_acknowledged", expired_7.
    split; [reflexivity|]. split; [apply list_elem_of_here | reflexivity]. }
  assert (Habsent : ~ updates_record "expired_8" (store [expired_7])).
  { intros (n & key & r & [= <- <-] & Hr & Hid).
    apply list_elem_of_singleton in Hr. subst r. discriminate Hid. }
  split; [exact Hpresent|]. split; [exact Habsent|]. split; [|split].
  - apply (proj2 (proj2 (proj2 (proj2
             (C4_acknowledge_twice (frozen june_1) (frozen june_1) "expired_7"
                (store [expired_7])))))).
    left. reflexivity.
  - apply (proj2 (proj2 (proj2 (proj2
             (C4_acknowledge_twice (frozen june_1) (frozen june_1_later)
                "expired_8" (store [expired_7])))))).
    right. exact Habsent.
  - intros Hsame.
    apply (proj1 (proj2 (proj2 (proj2
             (C4_acknowledge_twice (frozen june_1) (frozen june_1_later)
                "expired_7" (store [expired_7])))))) in Hsame.
    destruct Hsame as [Heq|Hnone]; [discriminate Heq | exact (Hnone Hpresent)].
Defined.

(** * The alert summary (C9) *)

Lemma append_assoc (a b c : string) : (a +:+ b) +:+ c = a +:+ (b +:+ c).
Proof.
  induction a as [|x a IH]; [reflexivity|].
  change (String x ((a +:+ b) +:+ c) = String x (a +:+ (b +:+ c))).
  rewrite IH. reflexivity.
Qed.

Lemma append_empty (a : string) : a +:+ "" = a.
Proof.
  induction a as [|x a IH]; [reflexivity|].
  change (String x (a +:+ "") = String x a). rewrite IH. reflexivity.
Qed.

Lemma fold_lines content group :
  fold_left (fun content alert => content +:+ summary_line alert) group content
  = content +:+ join (map summary_line group).
Proof.
  revert content. induction group as [|a group IH]; intros content; simpl.
  - symmetry. apply append_empty.
  - rewrite IH. apply append_assoc.
Qed.

Lemma append_marker_spec content group what :
  append_marker content group what = content +:+ truncation_marker group what.
Proof.
  unfold append_marker, truncation_marker.
  destruct (Nat.ltb_spec 10 (length group)) as [Hlong|Hshort].
  - pose proof (length_skipn 10 group) as Hlen.
    destruct (skipn 10 group) as [|a omitted] eqn:Hskip; [simpl in Hlen; lia|].
    replace (Z.of_nat (length group) - 10) with (Z.of_nat (length (a :: omitted)))
      by lia.
    reflexivity.
  - rewrite skipn_all2 by lia. symmetry. apply append_empty.
Qed.

(** C9 as first stated fails: the content of the summary of one alert list
    changes with the time of the call, and the content for the empty list
    states no count. *)
Lemma C9_summary_depends_on_the_clock :
  snd (summarize june_1 sample_alerts) <> snd (summarize june_1_later sample_alerts) /\
  snd (summarize june_1 [])
  = "Good news! There are currently no active inventory alerts.".
Proof.
  split; [|reflexivity].
  apply String.eqb_neq. vm_compute. reflexivity.
Qed.

(** C9 (as amended). The subject and the content of the summary are a
    function of the alert list and of the clock reading that the content
    prints: two readings with the same strftime text give the same
    summary. The subject states the total. For a non-empty list the
    content states the total and the Critical and Warning counts, lists
    the first ten (at most) Critical and the first ten (at most) Warning
    alerts, one line each, and after a group of more than ten adds
    "... and N more", N being the number of items of the group left out;
    for the empty list the content is the one sentence that there are no
    active alerts. *)
Theorem C9_summary_rendering (now : clock) (alerts : list Alert.t) :
  let critical := with_severity "Critical" alerts in
  let warning := with_severity "Warning" alerts in
  fst (summarize now alerts)
  = "Inventory Alert Summary - " +:+ str_of_Z (Z.of_nat (length alerts))
    +:+ " Active Alerts" /\
  (alerts = [] ->
   snd (summarize now alerts)
   = "Good news! There are currently no active inventory alerts.") /\
  (alerts <> [] ->
   snd (summarize now alerts)
   = summary_header now (length alerts) (length critical) (length warning)
     +:+ join (map summary_line (firstn 10 critical))
     +:+ truncation_marker critical "critical alerts"
     +:+ newline +:+ "Warning Alerts:" +:+ newline
     +:+ join (map summary_line (firstn 10 warning))
     +:+ truncation_marker warning "warnings"
     +:+ newline
     +:+ "Please review the inventory system for detailed information.") /\
  (length (firstn 10 critical) <= 10)%nat /\
  (length (firstn 10 warning) <= 10)%nat /\
  (forall now', strftime now' = strftime now ->
                summarize now' alerts = summarize now alerts).
Proof.
  cbv zeta. split; [reflexivity|]. split; [intros ->; reflexivity|].
  split; [|split; [|split]].
  - intros Hsome. destruct alerts as [|a alerts]; [congruence|].
    unfold summarize, snd, append_lines.
    rewrite !append_marker_spec, !fold_lines, !append_assoc. reflexivity.
  - rewrite length_firstn. lia.
  - rewrite length_firstn. lia.
  - intros now' Hsame. unfold summarize, summary_header.
    rewrite Hsame. reflexivity.
Qed.

Lemma C9_summary_rendering_witness :
  snd (summarize june_1 [])
  = "Good news! There are currently no active inventory alerts." /\
  sample_alerts <> [] /\
  snd (summarize june_1 sample_alerts)
  = summary_header june_1 2 1 1
    +:+ "- Expiring Soon: DrugA (Ann) - Expires in 4 days" +:+ newline
    +:+ newline +:+ "Warning Alerts:" +:+ newline
    +:+ "- Low Stock: DrugA (Multiple Patients) - Only 1 items remaining"
    +:+ newline +:+ newline
    +:+ "Please review the inventory system for detailed information.".
Proof.
  assert (Hsome : sample_alerts <> []) by (vm_compute; discriminate).
  split; [|split; [exact Hsome|]].
  - exact (proj1 (proj2 (C9_summary_rendering june_1 [])) eq_refl).
  - rewrite (proj1 (proj2 (proj2 (C9_summary_rendering june_1 sample_alerts))) Hsome).
    vm_compute. reflexivity.
Defined.

(** * Records without an expiration date (C10) *)

Lemma sql_where_dated cond table :
  (forall r, Inventory.expiration_date r = None -> cond r <> Some true) ->
  sql_where cond (List.filter dated table) = sql_where cond table.
Proof.
  intros Hcond. unfold sql_where.
  induction table as [|r table IH]; simpl; [reflexivity|].
  unfold dated at 1.
  destruct (Inventory.expiration_date r) eqn:Hdate; simpl; rewrite IH; [reflexivity|].
  specialize (Hcond r Hdate).
  destruct (cond r) as [[|]|]; congruence.
Qed.

Lemma sql_where_undated cond table :
  (forall r, Inventory.expiration_date r = None -> cond r <> Some true) ->
  sql_where cond (List.filter (fun r => negb (dated r)) table) = [].
Proof.
  intros Hcond. unfold sql_where.
  induction table as [|r table IH]; simpl; [reflexivity|].
  unfold dated at 1.
  destruct (Inventory.expiration_date r) eqn:Hdate; simpl; [exact IH|].
  specialize (Hcond r Hdate).
  destruct (cond r) as [[|]|]; congruence.
Qed.

Lemma sql_and_null_left b : sql_and None b <> Some true.
Proof. destruct b as [[|]|]; discriminate. Qed.

Lemma expired_condition_undated now r :
  Inventory.expiration_date r = None -> expired_condition now r <> Some true.
Proof. unfold expired_condition. intros ->. apply sql_and_null_left. Qed.

Lemma critical_condition_undated now critical_date r :
  Inventory.expiration_date r = None ->
  critical_condition now critical_date r <> Some true.
Proof. unfold critical_condition. intros ->. apply sql_and_null_left. Qed.

Lemma warning_condition_undated warning_date critical_date r :
  Inventory.expiration_date r = None ->
  warning_condition warning_date critical_date r <> Some true.
Proof. unfold warning_condition. intros ->. apply sql_and_null_left. Qed.

Lemma stock_condition_undated now r :
  Inventory.expiration_date r = None -> stock_condition now r <> Some true.
Proof. unfold stock_condition. intros ->. discriminate. Qed.

Lemma check_expiry_alerts_dated now table s :
  check_expiry_alerts now (List.filter dated table) s
  = check_expiry_alerts now table s.
Proof.
  unfold check_expiry_alerts.
  destruct (date_add (today now) (get (expiry_warning_days s) 30))
    as [warning_date|]; [|reflexivity].
  destruct (date_add (today now) (get (expiry_critical_days s) 7))
    as [critical_date|]; [|reflexivity].
  cbn [bind].
  rewrite (sql_where_dated (expired_condition now))
    by apply expired_condition_undated.
  rewrite (sql_where_dated (critical_condition now _))
    by apply critical_condition_undated.
  rewrite (sql_where_dated (warning_condition _ _))
    by apply warning_condition_undated.
  reflexivity.
Qed.

Lemma low_stock_query_dated now threshold table :
  low_stock_query now threshold (List.filter dated table)
  = low_stock_query now threshold table.
Proof.
  unfold low_stock_query. fold (stock_condition now).
  rewrite (sql_where_dated (stock_condition now))
    by apply stock_condition_undated.
  reflexivity.
Qed.

Lemma get_alert_settings_table reachable db db' :
  alert_settings_table db = alert_settings_table db' ->
  fst (get_alert_settings reachable db) = fst (get_alert_settings reachable db').
Proof.
  intros Htable. unfold get_alert_settings, get_db_connection.
  destruct reachable; [|reflexivity]. simpl. rewrite Htable.
  destruct (latest _); reflexivity.
Qed.

(** C10. A record whose expiration_date is NULL takes no part in any alert:
    evaluating the store gives the alerts that the store without such
    records gives, and a store made of such records alone matches none of
    the expired, expiring-critical and expiring-warning queries and forms
    no stock group. *)
Theorem C10_undated_records_invisible (reachable : bool) (now : clock)
  (db : database) :
  fst (get_current_alerts reachable now db)
  = fst (get_current_alerts reachable now (without_undated db)) /\
  sql_where (expired_condition now) (inventory (only_undated db)) = [] /\
  (forall critical_date,
     sql_where (critical_condition now critical_date)
               (inventory (only_undated db)) = []) /\
  (forall warning_date critical_date,
     sql_where (warning_condition warning_date critical_date)
               (inventory (only_undated db)) = []) /\
  (forall threshold,
     low_stock_query now threshold (inventory (only_undated db)) = []) /\
  fst (get_current_alerts reachable now (only_undated db)) = [].
Proof.
  assert (Hexp : sql_where (expired_condition now) (inventory (only_undated db)) = [])
    by (apply sql_where_undated, expired_condition_undated).
  assert (Hcrit : forall c, sql_where (critical_condition now c)
                              (inventory (only_undated db)) = [])
    by (intros c; apply sql_where_undated, critical_condition_undated).
  assert (Hwarn : forall w c, sql_where (warning_condition w c)
                                (inventory (only_undated db)) = [])
    by (intros w c; apply sql_where_undated, warning_condition_undated).
  assert (Hstock : forall t, low_stock_query now t (inventory (only_undated db)) = []).
  { intros t. unfold low_stock_query. fold (stock_condition now).
    change (inventory (only_undated db))
      with (List.filter (fun r => negb (dated r)) (inventory db)).
    rewrite (sql_where_undated (stock_condition now))
      by apply stock_condition_undated.
    reflexivity. }
  repeat split; auto.
  - unfold get_current_alerts, get_db_connection.
    destruct reachable; [|reflexivity].
    pose proof (get_alert_settings_table true db (without_undated db) eq_refl) as Hs.
    destruct (get_alert_settings true db) as [s d].
    destruct (get_alert_settings true (without_undated db)) as [s' d'].
    simpl in Hs. subst s'. simpl.
    rewrite check_expiry_alerts_dated. unfold check_stock_alerts.
    rewrite low_stock_query_dated. reflexivity.
  - unfold get_current_alerts, get_db_connection.
    destruct reachable; [|reflexivity].
    destruct (get_alert_settings true (only_undated db)) as [s d].
    unfold fst, check_expiry_alerts, check_stock_alerts. rewrite Hstock.
    destruct (date_add _ _); [|reflexivity].
    destruct (date_add _ _); [|reflexivity].
    cbn [bind]. rewrite Hexp, Hcrit, Hwarn. reflexivity.
Qed.

(** * Expiry alerts (C1, C7) *)

(** The first statement of the loop over the expired rows subtracts column 2
    of the row, the drug name, from a date: it raises on every row. *)
Lemma expired_alert_raises now r :
  expired_alert now (select_columns r) = Raise.
Proof. reflexivity. Qed.

(** One expired, unacknowledged record is enough for [check_expiry_alerts]
    to return no alert at all. *)
Lemma check_expiry_alerts_aborted now cur s :
  sql_where (expired_condition now) cur <> [] ->
  check_expiry_alerts now cur s = [].
Proof.
  intros Hexpired. unfold check_expiry_alerts.
  destruct (date_add _ _); [|reflexivity].
  destruct (date_add _ _); [|reflexivity].
  cbn [bind].
  destruct (sql_where (expired_condition now) cur) as [|r rows]; [congruence|].
  reflexivity.
Qed.

(** C1 (the code fails it). Record 7 expired on 2024-05-31, the day before
    the evaluation, and was never acknowledged: the expired query selects
    it, and the evaluation returns no alert, neither "expired_7" nor any
    other. *)
Theorem C1_expired_record_gets_no_alert :
  sql_where (expired_condition june_1) [expired_7] = [expired_7] /\
  fst (get_current_alerts true june_1 (store [expired_7])) = [].
Proof. split; vm_compute; reflexivity. Qed.

(** C7 (the code fails it). Record 2 expires on 2024-06-05, four days after
    the evaluation, inside the critical window of 7 days. Alone in the
    store it gets its Critical "Expiring Soon" alert with
    days_until_expiry 4; next to the expired record 7 it gets none, and
    only the stock alert is left. *)
Theorem C7_expiring_alert_lost_beside_expired_record :
  map digest (fst (get_current_alerts true june_1 (store [expiring_2])))
  = [ ("expiring_critical_2", "Expiring Soon", "Critical", Some 4, None);
      ("stock_DrugA_LocX", "Low Stock", "Warning", None, Some 1) ] /\
  critical_condition june_1 (today june_1 + 7) expiring_2 = Some true /\
  map digest
      (fst (get_current_alerts true june_1 (store [expiring_2; expired_7])))
  = [ ("stock_DrugA_LocX", "Low Stock", "Warning", None, Some 1) ].
Proof. repeat split; vm_compute; reflexivity. Qed.

(** ** The expiring-soon windows when no expired record is selected *)

Lemma not_acknowledged_true key r :
  not_acknowledged key r = Some true <-> key ∉ keys r.
Proof.
  unfold not_acknowledged, keys.
  destruct (Inventory.acknowledged_alerts r) as [m|]; simpl.
  - rewrite elem_of_dom. destruct (bool_decide_reflect (is_Some (m !! key)));
      simpl; split; intros; try congruence; tauto.
  - split; [intros _; set_solver | reflexivity].
Qed.

Lemma sql_and_true a b : sql_and a b = Some true <-> a = Some true /\ b = Some true.
Proof.
  destruct a as [[|]|], b as [[|]|]; simpl; split;
    try discriminate; try tauto; intros [? ?]; discriminate.
Qed.

Lemma critical_condition_true now critical_date r :
  critical_condition now critical_date r = Some true <->
  exists e, Inventory.expiration_date r = Some e /\
            today now <= e <= critical_date /\
            "expiring_critical" ∉ keys r.
Proof.
  unfold critical_condition. rewrite !sql_and_true, not_acknowledged_true.
  destruct (Inventory.expiration_date r) as [e|]; simpl; split.
  - intros [[[= Hle] [= Hge]] Hkey]. exists e. repeat split; [lia | lia | exact Hkey].
  - intros (e' & [= <-] & [Hge Hle] & Hkey).
    repeat split; [f_equal; lia | f_equal; lia | exact Hkey].
  - intros [[[=] _] _].
  - intros (e' & [=] & _).
Qed.

Lemma warning_condition_true warning_date critical_date r :
  warning_condition warning_date critical_date r = Some true <->
  exists e, Inventory.expiration_date r = Some e /\
            critical_date < e <= warning_date /\
            "expiring_warning" ∉ keys r.
Proof.
  unfold warning_condition. rewrite !sql_and_true, not_acknowledged_true.
  destruct (Inventory.expiration_date r) as [e|]; simpl; split.
  - intros [[[= Hle] [= Hgt]] Hkey]. exists e. repeat split; [lia | lia | exact Hkey].
  - intros (e' & [= <-] & [Hgt Hle] & Hkey).
    repeat split; [f_equal; lia | f_equal; lia | exact Hkey].
  - intros [[[=] _] _].
  - intros (e' & [=] & _).
Qed.

Lemma expired_condition_true now r :
  expired_condition now r = Some true <->
  exists e, Inventory.expiration_date r = Some e /\ e < today now /\
            "expired" ∉ keys r.
Proof.
  unfold expired_condition. rewrite sql_and_true, not_acknowledged_true.
  destruct (Inventory.expiration_date r) as [e|]; simpl; split.
  - intros [[= Hlt] Hkey]. exists e. repeat split; [lia | exact Hkey].
  - intros (e' & [= <-] & Hlt & Hkey). split; [f_equal; lia | exact Hkey].
  - intros [[=] _].
  - intros (e' & [=] & _).
Qed.

Lemma expiring_alert_dated now prefix severity r :
  dated r = true ->
  expiring_alert now prefix severity (select_columns r)
  = Ok (expiring_alert_of now prefix severity r).
Proof.
  unfold dated, expiring_alert, expiring_alert_of, select_columns.
  destruct (Inventory.expiration_date r); [reflexivity | discriminate].
Qed.

Lemma for_each_expiring now prefix severity rows :
  Forall (fun r => dated r = true) rows ->
  for_each (expiring_alert now prefix severity) (map select_columns rows)
  = Ok (map (expiring_alert_of now prefix severity) rows).
Proof.
  induction 1 as [|r rows Hr _ IH]; simpl; [reflexivity|].
  rewrite (expiring_alert_dated _ _ _ _ Hr). simpl. rewrite IH. reflexivity.
Qed.

Lemma sql_where_all_dated cond table :
  (forall r, Inventory.expiration_date r = None -> cond r <> Some true) ->
  Forall (fun r => dated r = true) (sql_where cond table).
Proof.
  intros Hcond. unfold sql_where.
  induction table as [|r table IH]; simpl; [constructor|].
  destruct (cond r) as [[|]|] eqn:Hsel; try exact IH.
  constructor; [|exact IH]. unfold dated.
  destruct (Inventory.expiration_date r) eqn:Hdate; [reflexivity|].
  specialize (Hcond r Hdate). congruence.
Qed.

Lemma date_add_Ok d days :
  date_add_defined d days = true -> date_add d days = Ok (d + days).
Proof. unfold date_add. intros ->. reflexivity. Qed.

(** A threshold that takes the warning or the critical date out of the
    calendar leaves no expiry alert. *)
Lemma check_expiry_alerts_overflow now cur s :
  date_add_defined (today now) (get (expiry_warning_days s) 30) = false \/
  date_add_defined (today now) (get (expiry_critical_days s) 7) = false ->
  check_expiry_alerts now cur s = [].
Proof.
  unfold check_expiry_alerts, date_add. intros [->| ->]; [reflexivity|].
  destruct (date_add_defined _ _); reflexivity.
Qed.

(** When the two dates are in the calendar and the expired query selects
    nothing, the expiry check returns one Critical alert for each record
    of the critical query and one Warning alert for each record of the
    warning query, in that order. *)
Lemma check_expiry_alerts_no_expired now cur s :
  date_add_defined (today now) (get (expiry_warning_days s) 30) = true ->
  date_add_defined (today now) (get (expiry_critical_days s) 7) = true ->
  sql_where (expired_condition now) cur = [] ->
  check_expiry_alerts now cur s
  = map (expiring_alert_of now "expiring_critical_" "Critical")
        (sql_where (critical_condition now
                      (today now + get (expiry_critical_days s) 7)) cur)
    ++ map (expiring_alert_of now "expiring_warning_" "Warning")
           (sql_where (warning_condition
                         (today now + get (expiry_warning_days s) 30)
                         (today now + get (expiry_critical_days s) 7)) cur).
Proof.
  intros Hwarning Hcritical Hnone. unfold check_expiry_alerts.
  rewrite (date_add_Ok _ _ Hwarning), (date_add_Ok _ _ Hcritical).
  cbn [bind]. rewrite Hnone. simpl.
  rewrite !for_each_expiring; [reflexivity | |];
    apply sql_where_all_dated;
    [apply warning_condition_undated | apply critical_condition_undated].
Qed.

(** The expiry check returns nothing, or the alerts of the two windows. *)
Lemma check_expiry_alerts_cases now cur s :
  check_expiry_alerts now cur s = [] \/
  check_expiry_alerts now cur s
  = map (expiring_alert_of now "expiring_critical_" "Critical")
        (sql_where (critical_condition now
                      (today now + get (expiry_critical_days s) 7)) cur)
    ++ map (expiring_alert_of now "expiring_warning_" "Warning")
           (sql_where (warning_condition
                         (today now + get (expiry_warning_days s) 30)
                         (today now + get (expiry_critical_days s) 7)) cur).
Proof.
  destruct (date_add_defined (today now) (get (expiry_warning_days s) 30))
    eqn:Hwarning;
    [|left; apply check_expiry_alerts_overflow; left; exact Hwarning].
  destruct (date_add_defined (today now) (get (expiry_critical_days s) 7))
    eqn:Hcritical;
    [|left; apply check_expiry_alerts_overflow; right; exact Hcritical].
  destruct (sql_where (expired_condition now) cur) as [|r rows] eqn:Hexpired.
  - right. apply check_expiry_alerts_no_expired; assumption.
  - left. apply check_expiry_alerts_aborted. rewrite Hexpired. discriminate.
Qed.

(** No record is in both windows. *)
Lemma windows_disjoint now warning_date critical_date r :
  critical_condition now critical_date r = Some true ->
  warning_condition warning_date critical_date r = Some true ->
  False.
Proof.
  rewrite critical_condition_true, warning_condition_true.
  intros (e & He & Hwin & _) (e' & He' & Hwin' & _).
  rewrite He in He'. injection He' as <-. lia.
Qed.

(** * Stock alerts (C6) *)

Lemma for_each_stock now (count : string * option string -> Z) groups :
  for_each (stock_alert now)
    (map (fun k => [PyStr (fst k); py_opt_str (snd k); PyInt (count k)]) groups)
  = Ok (map (fun k => stock_alert_of now (fst k) (snd k) (count k)) groups).
Proof.
  induction groups as [|k groups IH]; simpl; [reflexivity|].
  rewrite IH. reflexivity.
Qed.

(** The stock check returns one alert for each (drug, location) pair among
    the counted records whose group has at most the threshold's size. It
    never consults enable_stock_alerts. *)
Lemma check_stock_alerts_groups now cur s :
  check_stock_alerts now cur s
  = map (fun k => stock_alert_of now (fst k) (snd k) (group_size now cur k))
        (List.filter (fun k => group_size now cur k <=? get (low_stock_threshold s) 5)
                     (remove_dups (map stock_key (counted_records now cur)))).
Proof.
  unfold check_stock_alerts, low_stock_query.
  fold (stock_condition now). fold (counted_records now cur).
  fold (group_size now cur).
  rewrite (for_each_stock now (group_size now cur)). reflexivity.
Qed.

Lemma stock_groups_distinct now cur :
  NoDup (remove_dups (map stock_key (counted_records now cur))).
Proof. apply NoDup_remove_dups. Qed.

(** A group of the stock query has at least one record: the query never
    yields a group of size 0. *)
Lemma group_size_positive now cur k :
  k ∈ remove_dups (map stock_key (counted_records now cur)) ->
  1 <= group_size now cur k.
Proof.
  rewrite elem_of_remove_dups, list_elem_of_fmap.
  intros (r & -> & Hin). unfold group_size.
  induction (counted_records now cur) as [|r' rows IH]; [inversion Hin|].
  simpl. destruct (bool_decide_reflect (stock_key r' = stock_key r)) as [_|Hne].
  - simpl. lia.
  - apply elem_of_cons in Hin as [->|Hin]; [congruence | exact (IH Hin)].
Qed.

(** C6 (the code fails it). With enable_stock_alerts saved as False, and
    read back as the current settings, the evaluation still raises the
    stock alert of the three DrugA records at LocX. *)
Theorem C6_stock_alerts_ignore_the_switch :
  let saved :=
    save_alert_settings true june_1 "admin" stock_alerts_off
      (store three_of_drug_a) in
  fst saved = true /\
  fst (get_alert_settings true (snd saved)) = stock_alerts_off /\
  map digest (fst (get_current_alerts true june_1_later (snd saved)))
  = [ ("stock_DrugA_LocX", "Low Stock", "Info", None, Some 3) ].
Proof. repeat split; vm_compute; reflexivity. Qed.

(** * Suppression (C2) *)

(** C2 (the code fails it). Record 42 expires on 2024-06-20, in the warning
    window. Acknowledging "expiring_warning_42" returns True and leaves the
    store as it was, and the next evaluation raises the same alert again. *)
Theorem C2_acknowledged_warning_still_active :
  let db := store [expiring_42] in
  let answer :=
    acknowledge_alerts true None (frozen june_1) ["expiring_warning_42"] db in
  map digest (fst (get_current_alerts true june_1 db))
  = [ ("expiring_warning_42", "Expiring Soon", "Warning", Some 19, None);
      ("stock_DrugB_LocY", "Low Stock", "Warning", None, Some 1) ] /\
  answer = (true, db) /\
  map digest (fst (get_current_alerts true june_1_later (snd answer)))
  = [ ("expiring_warning_42", "Expiring Soon", "Warning", Some 19, None);
      ("stock_DrugB_LocY", "Low Stock", "Warning", None, Some 1) ].
Proof. repeat split; vm_compute; reflexivity. Qed.

(** The same gap on the expired side: acknowledging "expired_7" stores the
    key "expired_acknowledged", while the expired query looks for the key
    "expired", so the record is selected as before. *)
Example expired_acknowledgment_key_mismatch :
  let db := snd (acknowledge_alerts true None (frozen june_1) ["expired_7"]
                   (store [expired_7])) in
  acknowledged_at "expired_acknowledged" db = [Some (isoformat june_1)] /\
  acknowledged_at "expired" db = [None] /\
  sql_where (expired_condition june_1_later) (inventory db) = inventory db.
Proof. repeat split; vm_compute; reflexivity. Qed.

Lemma length_append (a b : string) :
  String.length (a +:+ b) = (String.length a + String.length b)%nat.
Proof.
  induction a as [|x a IH]; [reflexivity|].
  change (S (String.length (a +:+ b)) = S (String.length a + String.length b)).
  rewrite IH. reflexivity.
Qed.

(** No key that [acknowledge_alerts] writes is a key that a query reads. *)
Lemma acknowledge_key_not_queried alert_type key :
  key = "expired" \/ key = "expiring_critical" \/ key = "expiring_warning" ->
  alert_type +:+ "_acknowledged" <> key.
Proof.
  intros Hkey Heq.
  pose proof (f_equal String.length Heq) as Hlen.
  rewrite length_append in Hlen.
  destruct Hkey as [-> | [-> | ->]]; simpl in Hlen.
  - lia.
  - destruct alert_type as [|a [|b [|c [|d [|e t]]]]]; simpl in Hlen; try lia.
    discriminate Heq.
  - destruct alert_type as [|a [|b [|c [|d t]]]]; simpl in Hlen; try lia.
    discriminate Heq.
Qed.

Lemma not_acknowledged_other key key' value r :
  key' <> key ->
  not_acknowledged key (set_acknowledged {[ key' := value ]} r)
  = not_acknowledged key r.
Proof.
  intros Hne. unfold not_acknowledged, set_acknowledged, jsonb_concat; simpl.
  rewrite lookup_union, lookup_singleton_ne by exact Hne.
  destruct (Inventory.acknowledged_alerts r) as [m|]; simpl.
  - destruct (m !! key); reflexivity.
  - rewrite lookup_empty. reflexivity.
Qed.

Lemma queried_set_acknowledged now w c alert_type value r :
  queried now w c (set_acknowledged {[ alert_type +:+ "_acknowledged" := value ]} r)
  = queried now w c r.
Proof.
  unfold queried, expired_condition, critical_condition, warning_condition.
  rewrite !not_acknowledged_other
    by (apply acknowledge_key_not_queried; auto).
  reflexivity.
Qed.

Lemma sql_where_same (view : Inventory.row -> list pyval * (string * option string))
  cond t t' :
  Forall2 (fun r r' => view r = view r' /\ cond r = cond r') t t' ->
  map view (sql_where cond t) = map view (sql_where cond t').
Proof.
  unfold sql_where.
  induction 1 as [|r r' t t' [Hview Hcond] _ IH]; simpl; [reflexivity|].
  rewrite <- Hcond. destruct (cond r) as [[|]|]; simpl; congruence.
Qed.

Lemma same_queried_view now w c t t'
  (pick : option bool * option bool * option bool * option bool -> option bool) :
  same_queried now w c t t' ->
  Forall2 (fun r r' =>
             (select_columns r, stock_key r) = (select_columns r', stock_key r') /\
             pick (snd (queried now w c r)) = pick (snd (queried now w c r')))
          t t'.
Proof.
  induction 1 as [|r r' t t' Hq _ IH]; constructor; [|exact IH].
  rewrite <- Hq. split; [|reflexivity].
  apply (f_equal fst) in Hq. exact Hq.
Qed.

Lemma same_queried_where now w c t t'
  (pick : option bool * option bool * option bool * option bool -> option bool) :
  same_queried now w c t t' ->
  map (fun r => (select_columns r, stock_key r))
      (sql_where (fun r => pick (snd (queried now w c r))) t)
  = map (fun r => (select_columns r, stock_key r))
        (sql_where (fun r => pick (snd (queried now w c r))) t').
Proof.
  intros Hsame. apply sql_where_same.
  apply (same_queried_view now w c t t' pick Hsame).
Qed.

Lemma same_queried_expiry now t t' s :
  same_queried now (today now + get (expiry_warning_days s) 30)
               (today now + get (expiry_critical_days s) 7) t t' ->
  check_expiry_alerts now t s = check_expiry_alerts now t' s.
Proof.
  intros Hsame. unfold check_expiry_alerts, date_add.
  destruct (date_add_defined _ _); [|reflexivity].
  destruct (date_add_defined _ _); [|reflexivity].
  cbn [bind].
  pose proof (f_equal (map fst)
                (same_queried_where _ _ _ _ _ (fun q => q.1.1.1) Hsame)) as H1.
  pose proof (f_equal (map fst)
                (same_queried_where _ _ _ _ _ (fun q => q.1.1.2) Hsame)) as H2.
  pose proof (f_equal (map fst)
                (same_queried_where _ _ _ _ _ (fun q => q.1.2) Hsame)) as H3.
  rewrite !map_map in H1, H2, H3.
  set (w := today now + get (expiry_warning_days s) 30) in *.
  set (c := today now + get (expiry_critical_days s) 7) in *.
  assert (E1 : map select_columns (sql_where (expired_condition now) t)
               = map select_columns (sql_where (expired_condition now) t'))
    by exact H1.
  assert (E2 : map select_columns (sql_where (critical_condition now c) t)
               = map select_columns (sql_where (critical_condition now c) t'))
    by exact H2.
  assert (E3 : map select_columns (sql_where (warning_condition w c) t)
               = map select_columns (sql_where (warning_condition w c) t'))
    by exact H3.
  rewrite E1, E2, E3. reflexivity.
Qed.

Lemma count_by_keys k rows :
  length (List.filter (fun r => bool_decide (stock_key r = k)) rows)
  = length (List.filter (fun k' => bool_decide (k' = k)) (map stock_key rows)).
Proof.
  induction rows as [|r rows IH]; simpl; [reflexivity|].
  destruct (bool_decide (stock_key r = k)); simpl; rewrite IH; reflexivity.
Qed.

Lemma low_stock_query_by_keys now threshold cur :
  low_stock_query now threshold cur
  = low_stock_by_keys threshold (map stock_key (counted_records now cur)).
Proof.
  unfold low_stock_query, low_stock_by_keys.
  fold (stock_condition now). fold (counted_records now cur).
  rewrite (List.filter_ext _
             (fun k => Z.of_nat (length (List.filter (fun k' => bool_decide (k' = k))
                                           (map stock_key (counted_records now cur))))
                       <=? threshold))
    by (intros k; rewrite count_by_keys; reflexivity).
  apply map_ext. intros k. rewrite count_by_keys. reflexivity.
Qed.

Lemma same_queried_stock now w c t t' s :
  same_queried now w c t t' ->
  check_stock_alerts now t s = check_stock_alerts now t' s.
Proof.
  intros Hsame. unfold check_stock_alerts.
  rewrite !low_stock_query_by_keys.
  pose proof (f_equal (map snd)
                (same_queried_where _ _ _ _ _ (fun q => q.2) Hsame)) as Hkeys.
  rewrite !map_map in Hkeys.
  assert (E : map stock_key (counted_records now t)
              = map stock_key (counted_records now t')) by exact Hkeys.
  rewrite E. reflexivity.
Qed.

Lemma same_queried_refl now w c t : same_queried now w c t t.
Proof. induction t; constructor; auto. Qed.

Lemma same_queried_trans now w c t1 t2 t3 :
  same_queried now w c t1 t2 -> same_queried now w c t2 t3 ->
  same_queried now w c t1 t3.
Proof.
  intros H12. revert t3.
  induction H12 as [|r1 r2 t1 t2 Hq _ IH]; intros t3 H23.
  - inversion H23; constructor.
  - inversion H23 as [|? r3 ? t3' Hq' Hrest]; subst.
    constructor; [congruence | apply IH; assumption].
Qed.

Lemma acknowledgment_of_entry now alert_id record_id entry :
  acknowledgment_of now alert_id = Ok (Some (record_id, entry)) ->
  exists alert_type, entry = {[ alert_type +:+ "_acknowledged" := isoformat now ]}.
Proof.
  unfold acknowledgment_of.
  destruct (contains_char "_" alert_id); [|discriminate].
  destruct (split_once "_" alert_id) as [alert_type digits].
  destruct (isdigit digits); [|discriminate].
  destruct (int_of_str digits); [|discriminate].
  intros [= _ <-]. exists alert_type. reflexivity.
Qed.

Lemma update_acknowledged_queried now w c alert_type value record_id t :
  same_queried now w c
    (update_acknowledged {[ alert_type +:+ "_acknowledged" := value ]} record_id t) t.
Proof.
  induction t as [|r t IH]; simpl; constructor; [|exact IH].
  destruct (Inventory.id r =? record_id); [|reflexivity].
  apply queried_set_acknowledged.
Qed.

Lemma acknowledge_loop_queried now' w c now alert_ids :
  forall k fault table table',
    acknowledge_loop now k alert_ids fault table = Ok table' ->
    same_queried now' w c table' table.
Proof.
  induction alert_ids as [|alert_id rest IH]; intros k fault table table'; simpl.
  - intros [= <-]. apply same_queried_refl.
  - destruct (acknowledgment_of (now k) alert_id) as [[[record_id entry]|]|]
      eqn:Hack.
    + apply acknowledgment_of_entry in Hack as [alert_type ->].
      destruct fault as [[|n]|]; try discriminate; intros Hloop;
        (eapply same_queried_trans;
         [eapply IH; exact Hloop | apply update_acknowledged_queried]).
    + apply IH.
    + discriminate.
Qed.

(** Whatever ids are acknowledged, and whether or not the call succeeds,
    every later evaluation returns the alerts it would have returned
    without the acknowledgment: no acknowledgment suppresses an alert. *)
Lemma acknowledgment_never_suppresses reachable fault now alert_ids
  reachable' now' db :
  fst (get_current_alerts reachable' now'
         (snd (acknowledge_alerts reachable fault now alert_ids db)))
  = fst (get_current_alerts reachable' now' db).
Proof.
  unfold acknowledge_alerts, close, commit, rollback.
  destruct reachable; [|reflexivity].
  change (get_db_connection true db) with (Some db). cbv iota.
  destruct (acknowledge_loop now 0 alert_ids fault (inventory db))
    as [table|] eqn:Hloop; [|reflexivity].
  unfold snd, get_current_alerts, get_db_connection.
  destruct reachable'; [|reflexivity].
  match goal with
  | |- context [get_alert_settings true ?d] =>
      pose proof (get_alert_settings_table true d db eq_refl) as Hs;
      destruct (get_alert_settings true d) as [s d']
  end.
  destruct (get_alert_settings true db) as [s0 d0]. simpl in Hs. subst s0.
  unfold fst, inventory at 1 2.
  rewrite (same_queried_expiry now' table (inventory db) s)
    by (eapply acknowledge_loop_queried; exact Hloop).
  rewrite (same_queried_stock now' 0 0 table (inventory db) s)
    by (eapply acknowledge_loop_queried; exact Hloop).
  reflexivity.
Qed.

(** * Further properties of the evaluation *)

Lemma elem_of_sql_where cond table r :
  r ∈ sql_where cond table <-> r ∈ table /\ cond r = Some true.
Proof.
  unfold sql_where. rewrite !list_elem_of_In, filter_In.
  destruct (cond r) as [[|]|]; split; intros [? ?]; split; congruence.
Qed.

Lemma expired_selected now table r e :
  r ∈ table -> Inventory.expiration_date r = Some e -> e < today now ->
  "expired" ∉ keys r ->
  sql_where (expired_condition now) table <> [].
Proof.
  intros Hin Hdate Hlt Hkey Hnone.
  assert (Hsel : r ∈ sql_where (expired_condition now) table).
  { apply elem_of_sql_where. split; [exact Hin|].
    apply expired_condition_true. exists e. auto. }
  rewrite Hnone in Hsel. inversion Hsel.
Qed.

Lemma evaluation_with_expired_record now db r e :
  r ∈ inventory db ->
  Inventory.expiration_date r = Some e ->
  e < today now ->
  "expired" ∉ keys r ->
  fst (get_current_alerts true now db)
  = check_stock_alerts now (inventory db) (fst (get_alert_settings true db)).
Proof.
  intros Hin Hdate Hlt Hkey.
  unfold get_current_alerts, get_db_connection.
  destruct (get_alert_settings true db) as [s d]. simpl.
  rewrite check_expiry_alerts_aborted
    by (eapply expired_selected; eassumption).
  reflexivity.
Qed.

Lemma stock_alerts_no_timeline now cur s :
  expiry_timeline (check_stock_alerts now cur s) = [].
Proof.
  rewrite check_stock_alerts_groups. unfold expiry_timeline.
  induction (List.filter _ (remove_dups _)) as [|k ks IH]; [reflexivity|].
  simpl. exact IH.
Qed.

(** One record that expired before today and has no "expired" key silences
    every expiry alert of the store: the evaluation returns the stock
    alerts and nothing else, whatever other records are about to expire. *)
Theorem expired_record_silences_expiry_alerts (now : clock) (db : database)
  (r : Inventory.row) (e : Z) :
  r ∈ inventory db ->
  Inventory.expiration_date r = Some e ->
  e < today now ->
  "expired" ∉ keys r ->
  fst (get_current_alerts true now db)
  = check_stock_alerts now (inventory db) (fst (get_alert_settings true db)) /\
  expiry_timeline (fst (get_current_alerts true now db)) = [].
Proof.
  intros Hin Hdate Hlt Hkey.
  pose proof (evaluation_with_expired_record now db r e Hin Hdate Hlt Hkey)
    as Heval.
  split; [exact Heval|].
  rewrite Heval. apply stock_alerts_no_timeline.
Qed.

Lemma expired_record_silences_expiry_alerts_witness :
  expired_7 ∈ inventory (store [expiring_2; expired_7]) /\
  fst (get_current_alerts true june_1 (store [expiring_2; expired_7]))
  = check_stock_alerts june_1 [expiring_2; expired_7]
      (fst (get_alert_settings true (store [expiring_2; expired_7]))).
Proof.
  assert (Hin : expired_7 ∈ inventory (store [expiring_2; expired_7]))
    by (apply list_elem_of_In; simpl; auto).
  split; [exact Hin|].
  refine (proj1 (expired_record_silences_expiry_alerts june_1
                   (store [expiring_2; expired_7]) expired_7
                   (toordinal 2024 5 31) Hin eq_refl _ _)).
  - vm_compute. reflexivity.
  - unfold keys. simpl. set_solver.
Defined.

(** While today + expiry_warning_days and today + expiry_critical_days are
    dates and no expired, unacknowledged record is in the store, the alerts
    of the expiry check are exactly these: for each record that expires
    between today and today + expiry_critical_days and has no
    "expiring_critical" key, its Critical "Expiring Soon" alert; for each
    record that expires after that and by today + expiry_warning_days and
    has no "expiring_warning" key, its Warning alert; each carrying the
    record's number, names, location and the days left. *)
Theorem expiry_alerts_without_expired_record (now : clock)
  (cur : list Inventory.row) (s : alert_settings) :
  date_add_defined (today now) (get (expiry_warning_days s) 30) = true ->
  date_add_defined (today now) (get (expiry_critical_days s) 7) = true ->
  sql_where (expired_condition now) cur = [] ->
  forall a,
    a ∈ check_expiry_alerts now cur s <->
    exists r e,
      r ∈ cur /\ Inventory.expiration_date r = Some e /\
      (today now <= e <= today now + get (expiry_critical_days s) 7 /\
       ("expiring_critical" ∉ keys r) /\
       a = expiring_alert_of now "expiring_critical_" "Critical" r \/
       today now + get (expiry_critical_days s) 7 < e
         <= today now + get (expiry_warning_days s) 30 /\
       ("expiring_warning" ∉ keys r) /\
       a = expiring_alert_of now "expiring_warning_" "Warning" r).
Proof.
  intros Hwarning Hcritical Hnone a.
  rewrite (check_expiry_alerts_no_expired now cur s Hwarning Hcritical Hnone).
  rewrite elem_of_app, !list_elem_of_fmap. split.
  - intros [(r & -> & Hr) | (r & -> & Hr)];
      apply elem_of_sql_where in Hr as [Hr Hcond].
    + apply critical_condition_true in Hcond as (e & He & Hwin & Hkey).
      exists r, e. split; [exact Hr|]. split; [exact He|]. left. auto.
    + apply warning_condition_true in Hcond as (e & He & Hwin & Hkey).
      exists r, e. split; [exact Hr|]. split; [exact He|]. right. auto.
  - intros (r & e & Hr & He & [(Hwin & Hkey & ->) | (Hwin & Hkey & ->)]).
    + left. exists r. split; [reflexivity|].
      apply elem_of_sql_where. split; [exact Hr|].
      apply critical_condition_true. exists e. auto.
    + right. exists r. split; [reflexivity|].
      apply elem_of_sql_where. split; [exact Hr|].
      apply warning_condition_true. exists e. auto.
Qed.

Lemma expiry_alerts_without_expired_record_witness :
  date_add_defined (today june_1) 30 = true /\
  date_add_defined (today june_1) 7 = true /\
  sql_where (expired_condition june_1) [expiring_2; expiring_42] = [] /\
  expiring_alert_of june_1 "expiring_warning_" "Warning" expiring_42
    ∈ check_expiry_alerts june_1 [expiring_2; expiring_42]
        get_default_alert_settings.
Proof.
  split; [reflexivity|]. split; [reflexivity|]. split; [reflexivity|].
  apply (expiry_alerts_without_expired_record june_1 [expiring_2; expiring_42]
           get_default_alert_settings eq_refl eq_refl eq_refl).
  exists expiring_42, (toordinal 2024 6 20).
  split; [apply list_elem_of_In; simpl; auto|]. split; [reflexivity|].
  right. split; [vm_compute; split; [reflexivity | discriminate]|].
  split; [unfold keys; simpl; set_solver | reflexivity].
Defined.


Lemma warning_window_empty warning_date critical_date cur :
  warning_date <= critical_date ->
  sql_where (warning_condition warning_date critical_date) cur = [].
Proof.
  intros Hle. unfold sql_where.
  induction cur as [|r cur IH]; simpl; [reflexivity|].
  destruct (warning_condition warning_date critical_date r) as [[|]|] eqn:Hcond;
    try exact IH.
  apply warning_condition_true in Hcond as (e & _ & Hwin & _). lia.
Qed.

Lemma expiry_alert_kinds now cur s :
  Forall (fun a =>
            Alert.alert_type a = "Expiring Soon" /\
            is_Some (Alert.days_until_expiry a) /\
            (Alert.severity a = "Critical" \/ Alert.severity a = "Warning"))
         (check_expiry_alerts now cur s).
Proof.
  destruct (check_expiry_alerts_cases now cur s) as [-> | ->];
    [constructor|].
  apply Forall_app. split; apply Forall_fmap, Forall_forall; intros r _;
    (split; [reflexivity|]; split; [eexists; reflexivity|]); auto.
Qed.

(** When expiry_critical_days is not below expiry_warning_days, which the
    settings page lets the user save, the warning window is empty and the
    expiry check returns no Warning alert. *)
Theorem no_warning_when_critical_days_cover_warning_days (now : clock)
  (cur : list Inventory.row) (s : alert_settings) :
  get (expiry_warning_days s) 30 <= get (expiry_critical_days s) 7 ->
  Forall (fun a => Alert.severity a = "Critical") (check_expiry_alerts now cur s).
Proof.
  intros Hdays.
  destruct (check_expiry_alerts_cases now cur s) as [-> | ->];
    [constructor|].
  rewrite warning_window_empty by lia. rewrite app_nil_r.
  apply Forall_fmap, Forall_forall. intros r _. reflexivity.
Qed.

Lemma no_warning_when_critical_days_cover_warning_days_witness :
  get (expiry_warning_days (new_settings 7 30 5 true false "" "Daily")) 30
  <= get (expiry_critical_days (new_settings 7 30 5 true false "" "Daily")) 7 /\
  map digest (check_expiry_alerts june_1 [expiring_2; expiring_42]
                (new_settings 7 30 5 true false "" "Daily"))
  = [ ("expiring_critical_2", "Expiring Soon", "Critical", Some 4, None);
      ("expiring_critical_42", "Expiring Soon", "Critical", Some 19, None) ] /\
  Forall (fun a => Alert.severity a = "Critical")
         (check_expiry_alerts june_1 [expiring_2; expiring_42]
            (new_settings 7 30 5 true false "" "Daily")).
Proof.
  assert (Hdays :
            get (expiry_warning_days (new_settings 7 30 5 true false "" "Daily")) 30
            <= get (expiry_critical_days (new_settings 7 30 5 true false "" "Daily")) 7)
    by (simpl; lia).
  split; [exact Hdays|]. split; [vm_compute; reflexivity|].
  exact (no_warning_when_critical_days_cover_warning_days june_1
           [expiring_2; expiring_42] _ Hdays).
Defined.

(** * Further properties of the stock check *)

Lemma stock_alert_of_inj now k k' c c' :
  (Alert.item_name (stock_alert_of now (fst k) (snd k) c),
   Alert.location (stock_alert_of now (fst k) (snd k) c))
  = (Alert.item_name (stock_alert_of now (fst k') (snd k') c'),
     Alert.location (stock_alert_of now (fst k') (snd k') c')) ->
  k = k'.
Proof.
  destruct k as [d l], k' as [d' l']; simpl. intros [= -> Hl].
  f_equal. destruct l, l'; simpl in Hl; congruence.
Qed.

Lemma stock_alert_kinds now cur s :
  Forall (fun a =>
            Alert.alert_type a = "Low Stock" /\
            Alert.days_until_expiry a = None /\
            (Alert.severity a = "Warning" \/ Alert.severity a = "Info"))
         (check_stock_alerts now cur s).
Proof.
  rewrite check_stock_alerts_groups.
  apply Forall_fmap, Forall_forall. intros k Hk.
  apply list_elem_of_In, filter_In in Hk as [Hk _].
  apply list_elem_of_In, group_size_positive in Hk.
  unfold stock_alert_of; simpl.
  destruct (Z.eqb_spec (group_size now cur k) 0) as [Hzero|_]; [lia|].
  split; [reflexivity|]. split; [reflexivity|].
  destruct (group_size now cur k <=? 2); auto.
Qed.

(** Every stock alert is a "Low Stock" alert without a record id, whose
    stock_count is at least 1 and at most the threshold, Warning for 1 or
    2 items and Info above: the check never returns an "Out of Stock" or a
    Critical alert, and returns nothing when the threshold is below 1. *)
Theorem stock_alerts_are_low_stock (now : clock) (cur : list Inventory.row)
  (s : alert_settings) :
  Forall (fun a =>
            Alert.alert_type a = "Low Stock" /\
            Alert.record_id a = PyNone /\
            Alert.days_until_expiry a = None /\
            exists count,
              Alert.stock_count a = Some count /\
              1 <= count <= get (low_stock_threshold s) 5 /\
              Alert.severity a = (if count <=? 2 then "Warning" else "Info"))
         (check_stock_alerts now cur s).
Proof.
  rewrite check_stock_alerts_groups.
  apply Forall_fmap, Forall_forall. intros k Hk.
  apply list_elem_of_In, filter_In in Hk as [Hk Hsize].
  apply list_elem_of_In, group_size_positive in Hk.
  apply Z.leb_le in Hsize.
  unfold stock_alert_of; simpl.
  destruct (Z.eqb_spec (group_size now cur k) 0) as [Hzero|_]; [lia|].
  repeat split; try reflexivity.
  exists (group_size now cur k). repeat split; auto.
Qed.

Lemma group_member now cur k :
  1 <= group_size now cur k -> k ∈ map stock_key (counted_records now cur).
Proof.
  unfold group_size.
  induction (counted_records now cur) as [|r rows IH]; simpl; [lia|].
  destruct (bool_decide_reflect (stock_key r = k)) as [Hkey|Hne].
  - intros _. rewrite Hkey. left.
  - intros Hpos. right. exact (IH Hpos).
Qed.

(** The stock check returns one alert for each (drug, location) pair that
    has between 1 and threshold unexpired records, and for no other pair:
    the pairs of the alerts are distinct, and an alert for a pair with a
    count is returned exactly when the count is the number of the pair's
    records that expire today or later and lies in that range. *)
Theorem stock_alerts_one_per_group (now : clock) (cur : list Inventory.row)
  (s : alert_settings) :
  NoDup (map (fun a => (Alert.item_name a, Alert.location a))
             (check_stock_alerts now cur s)) /\
  forall (k : string * option string) (count : Z),
    (PyStr (fst k), py_opt_str (snd k), Some count)
      ∈ map (fun a => (Alert.item_name a, Alert.location a, Alert.stock_count a))
            (check_stock_alerts now cur s)
    <-> count = group_size now cur k /\
        1 <= count <= get (low_stock_threshold s) 5.
Proof.
  rewrite check_stock_alerts_groups.
  set (groups := remove_dups (map stock_key (counted_records now cur))).
  set (kept := List.filter _ groups).
  assert (Hkept : forall k, k ∈ kept <->
                            k ∈ groups /\
                            group_size now cur k <= get (low_stock_threshold s) 5).
  { intros k. unfold kept. rewrite !list_elem_of_In, filter_In, Z.leb_le.
    reflexivity. }
  split.
  - rewrite map_map. apply NoDup_fmap_2_strong.
    + intros k k' _ _ Heq. exact (stock_alert_of_inj now k k' _ _ Heq).
    + unfold kept. apply NoDup_ListNoDup, List.NoDup_filter, NoDup_ListNoDup.
      apply stock_groups_distinct.
  - intros k count. rewrite map_map. simpl. rewrite list_elem_of_fmap. split.
    + intros (k' & Heq & Hin). apply Hkept in Hin as [Hin Hle].
      injection Heq as Hd Hl Hc.
      assert (k = k') as <-.
      { destruct k as [d l], k' as [d' l']; simpl in *. subst d'. f_equal.
        destruct l, l'; simpl in Hl; congruence. }
      pose proof (group_size_positive now cur k Hin). subst count. lia.
    + intros [-> [Hpos Hle]]. exists k. split; [reflexivity|].
      apply Hkept. split; [|exact Hle].
      unfold groups. rewrite elem_of_remove_dups.
      apply group_member. exact Hpos.
Qed.

(** * Further properties of the acknowledgment *)

Lemma all_digits_no_underscore s : all_digits s = true -> contains_char "_" s = false.
Proof.
  induction s as [|c s IH]; [reflexivity|].
  cbn [all_digits contains_char]. intros [Hc Hs]%andb_prop.
  destruct (Ascii.eqb_spec "_"%char c) as [<-|_]; [discriminate Hc | exact (IH Hs)].
Qed.

Lemma isdigit_all_digits s : isdigit s = true -> all_digits s = true.
Proof. destruct s; [discriminate | auto]. Qed.

Lemma replace_keeps_underscore a b :
  contains_char "_" (replace_char " " "_" (a +:+ String "_" b)) = true.
Proof.
  induction a as [|c a IH].
  - reflexivity.
  - change (String c a +:+ String "_" b) with (String c (a +:+ String "_" b)).
    cbn [replace_char contains_char]. destruct (Ascii.eqb " " c).
    + reflexivity.
    + destruct (Ascii.eqb "_" c); [reflexivity | exact IH].
Qed.

Lemma expiring_id_not_acknowledged now prefix severity r :
  prefix = "expiring_critical_" \/ prefix = "expiring_warning_" ->
  update_of (Alert.id (expiring_alert_of now prefix severity r)) = Ok None.
Proof.
  intros [-> | ->]; reflexivity.
Qed.

Lemma stock_id_not_acknowledged now drug_name location count :
  update_of (Alert.id (stock_alert_of now drug_name location count)) = Ok None.
Proof.
  unfold update_of, stock_alert_of, Alert.id.
  set (rest := py_str (py_opt_str location)).
  change ("stock_" +:+ drug_name +:+ "_" +:+ rest)
    with (String "s" (String "t" (String "o" (String "c" (String "k"
            (String "_" (drug_name +:+ String "_" rest))))))).
  simpl.
  destruct (isdigit (replace_char " " "_" (drug_name +:+ String "_" rest)))
    eqn:Hdigits; [|reflexivity].
  apply isdigit_all_digits, all_digits_no_underscore in Hdigits.
  rewrite replace_keeps_underscore in Hdigits. discriminate.
Qed.

Lemma evaluation_ids_not_acknowledged reachable now db alert_id :
  alert_id ∈ map Alert.id (fst (get_current_alerts reachable now db)) ->
  update_of alert_id = Ok None.
Proof.
  unfold get_current_alerts, get_db_connection.
  destruct reachable; [|intros Hin; inversion Hin].
  destruct (get_alert_settings true db) as [s d]. simpl.
  rewrite map_app, elem_of_app, check_stock_alerts_groups.
  intros [Hin | Hin].
  - destruct (check_expiry_alerts_cases now (inventory db) s) as [Hcase | Hcase];
      rewrite Hcase in Hin; [inversion Hin|].
    rewrite map_app, elem_of_app, !map_map, !list_elem_of_fmap in Hin.
    destruct Hin as [(r & -> & _) | (r & -> & _)];
      apply expiring_id_not_acknowledged; auto.
  - rewrite map_map, list_elem_of_fmap in Hin. destruct Hin as (k & -> & _).
    apply stock_id_not_acknowledged.
Qed.

Lemma acknowledge_nothing alert_ids :
  Forall (fun alert_id => update_of alert_id = Ok None) alert_ids ->
  forallb readable alert_ids = true /\
  acknowledged_records alert_ids = [] /\
  forall now k table, acknowledge_steps now k alert_ids table = table.
Proof.
  unfold acknowledged_records.
  induction 1 as [|alert_id rest Hnone _ (Hreadable & Hrecords & Hsteps)];
    [repeat split|].
  cbn [forallb omap list_omap acknowledge_steps]. unfold readable at 1.
  rewrite Hnone, Hreadable, Hrecords. repeat split. exact Hsteps.
Qed.

(** No id of an alert that an evaluation returns is one that
    [acknowledge_alerts] acts on: acknowledging any selection of such ids,
    as the "Acknowledge All" and "Acknowledge Selected" buttons do, sends
    no UPDATE, leaves the store as it is, and still returns True when the
    store is reachable. *)
Theorem acknowledging_evaluated_alerts_changes_nothing
  (reachable' : bool) (now' : clock) (evaluated : database)
  (reachable : bool) (fault : option nat) (now : nat -> clock)
  (alert_ids : list string) (db : database) :
  alert_ids ⊆ map Alert.id (fst (get_current_alerts reachable' now' evaluated)) ->
  acknowledge_alerts reachable fault now alert_ids db = (reachable, db).
Proof.
  intros Hsub.
  destruct (acknowledge_nothing alert_ids) as (Hreadable & Hrecords & Hsteps).
  { apply Forall_forall. intros alert_id Hin.
    eapply evaluation_ids_not_acknowledged. apply Hsub, Hin. }
  rewrite acknowledge_alerts_outcome, Hreadable, Hsteps.
  unfold accepted. rewrite Hrecords.
  destruct reachable; [|reflexivity].
  destruct fault, db; reflexivity.
Qed.

Lemma acknowledging_evaluated_alerts_changes_nothing_witness :
  map Alert.id (fst (get_current_alerts true june_1 (store [expiring_2; expiring_42])))
  = ["expiring_critical_2"; "expiring_warning_42";
     "stock_DrugA_LocX"; "stock_DrugB_LocY"] /\
  acknowledge_all true None (frozen june_1_later) alert_type_options
    (fst (get_current_alerts true june_1 (store [expiring_2; expiring_42])))
    (store [expiring_2; expiring_42])
  = (true, store [expiring_2; expiring_42]).
Proof.
  split; [vm_compute; reflexivity|].
  unfold acknowledge_all.
  apply (acknowledging_evaluated_alerts_changes_nothing
           true june_1 (store [expiring_2; expiring_42])).
  intros alert_id Hin.
  apply list_elem_of_fmap in Hin as (a & -> & Hin).
  apply list_elem_of_fmap. exists a. split; [reflexivity|].
  unfold filtered_alerts in Hin. apply list_elem_of_In, filter_In in Hin as [Hin _].
  apply list_elem_of_In, Hin.
Defined.

Lemma acknowledge_alerts_cases reachable fault now alert_ids db :
  snd (acknowledge_alerts reachable fault now alert_ids db) = db \/
  snd (acknowledge_alerts reachable fault now alert_ids db)
  = {| inventory := acknowledge_steps now 0 alert_ids (inventory db);
       alert_settings_table := alert_settings_table db |}.
Proof.
  rewrite acknowledge_alerts_outcome.
  destruct (reachable && forallb readable alert_ids && accepted fault alert_ids);
    [right | left]; reflexivity.
Qed.


Lemma update_acknowledged_data entry record_id table :
  map data_columns (update_acknowledged entry record_id table)
  = map data_columns table.
Proof.
  unfold update_acknowledged. rewrite map_map. apply map_ext.
  intros r. destruct (Inventory.id r =? record_id); reflexivity.
Qed.

Lemma acknowledge_steps_data now alert_ids :
  forall k table,
    map data_columns (acknowledge_steps now k alert_ids table)
    = map data_columns table.
Proof.
  induction alert_ids as [|alert_id rest IH]; intros k table; [reflexivity|].
  cbn [acknowledge_steps].
  destruct (update_of alert_id) as [[[n key]|]|]; rewrite IH;
    [apply update_acknowledged_data | reflexivity | reflexivity].
Qed.

Lemma run_data db o :
  map data_columns (inventory (run db o)) = map data_columns (inventory db).
Proof.
  destruct o; simpl.
  - rewrite get_current_alerts_store. reflexivity.
  - destruct (acknowledge_alerts_cases reachable fault now alert_ids db)
      as [-> | ->]; [reflexivity|].
    apply acknowledge_steps_data.
  - rewrite get_alert_settings_store. reflexivity.
  - rewrite save_alert_settings_inventory. reflexivity.
  - rewrite send_alert_summary_email_store. reflexivity.
Qed.

(** Over every sequence of engine operations the inventory keeps its
    records, in their order, with every column but acknowledged_alerts
    unchanged: the engine inserts no record, deletes none, and edits no
    name, date, number or location. *)
Theorem engine_never_edits_record_data (db : database) (ops : list operation) :
  map data_columns (inventory (run_all db ops)) = map data_columns (inventory db).
Proof.
  unfold run_all. revert db.
  induction ops as [|o ops IH]; intros db; simpl; [reflexivity|].
  rewrite IH. apply run_data.
Qed.

Lemma update_acknowledged_other entry record_id table :
  Forall2 (fun r r' => Inventory.id r <> record_id -> r' = r)
          table (update_acknowledged entry record_id table).
Proof.
  induction table as [|r table IH]; simpl; constructor; [|exact IH].
  destruct (Z.eqb_spec (Inventory.id r) record_id); [contradiction | reflexivity].
Qed.

Lemma acknowledge_steps_other now alert_ids :
  forall k table,
    Forall2 (fun r r' =>
               Inventory.id r ∉ acknowledged_records alert_ids -> r' = r)
            table (acknowledge_steps now k alert_ids table).
Proof.
  induction alert_ids as [|alert_id rest IH]; intros k table.
  - induction table; constructor; auto.
  - unfold acknowledged_records. cbn [acknowledge_steps omap list_omap].
    destruct (update_of alert_id) as [[[n key]|]|]; [|apply IH..].
    specialize (IH (S k) (update_acknowledged {[ key := isoformat (now k) ]} n table)).
    pose proof (update_acknowledged_other {[ key := isoformat (now k) ]} n table)
      as Hone.
    revert IH.
    generalize (acknowledge_steps now (S k) rest
                  (update_acknowledged {[ key := isoformat (now k) ]} n table)).
    induction Hone as [|r r1 t t1 Hr _ IHt]; intros final Hfinal;
      inversion Hfinal as [|? r2 ? t2 Hr2 Hrest]; subst; constructor.
    + intros Hnot. rewrite not_elem_of_cons in Hnot. destruct Hnot as [Hne Hnot].
      assert (Inventory.id r1 = Inventory.id r) as Hid
        by (rewrite (Hr Hne); reflexivity).
      rewrite Hr2 by (rewrite Hid; exact Hnot). apply Hr, Hne.
    + apply IHt, Hrest.
Qed.

(** An acknowledgment changes only the records that its ids name: a
    record whose number is not the digits of any id of the form
    <text>_<digits> comes out exactly as it went in, and the settings
    store is not touched. *)
Theorem acknowledge_leaves_other_records (reachable : bool)
  (fault : option nat) (now : nat -> clock) (alert_ids : list string)
  (db : database) :
  let db' := snd (acknowledge_alerts reachable fault now alert_ids db) in
  alert_settings_table db' = alert_settings_table db /\
  Forall2 (fun r r' =>
             Inventory.id r ∉ acknowledged_records alert_ids -> r' = r)
          (inventory db) (inventory db').
Proof.
  cbv zeta.
  destruct (acknowledge_alerts_cases reachable fault now alert_ids db)
    as [-> | ->].
  - split; [reflexivity|]. induction (inventory db); constructor; auto.
  - split; [reflexivity | apply acknowledge_steps_other].
Qed.

(** ** The order of the ids *)

Lemma set_acknowledged_shape key value r :
  acknowledged_shape (set_acknowledged {[ key := value ]} r)
  = (data_columns r, {[ key ]} ∪ keys r).
Proof.
  unfold acknowledged_shape, keys, set_acknowledged, jsonb_concat; simpl.
  rewrite dom_union_L, dom_singleton_L. reflexivity.
Qed.

Lemma update_acknowledged_shape key value n table :
  map acknowledged_shape (update_acknowledged {[ key := value ]} n table)
  = map (shape_update key n) (map acknowledged_shape table).
Proof.
  unfold update_acknowledged. rewrite !map_map. apply map_ext. intros r.
  unfold shape_update. cbn [acknowledged_shape data_columns fst snd].
  destruct (Inventory.id r =? n); [apply set_acknowledged_shape | reflexivity].
Qed.

Lemma acknowledge_steps_shape now alert_ids :
  forall k table,
    map acknowledged_shape (acknowledge_steps now k alert_ids table)
    = fold_left shape_step alert_ids (map acknowledged_shape table).
Proof.
  induction alert_ids as [|alert_id rest IH]; intros k table; [reflexivity|].
  cbn [acknowledge_steps fold_left]. unfold shape_step at 2.
  destruct (update_of alert_id) as [[[n key]|]|]; rewrite IH;
    [rewrite update_acknowledged_shape|..]; reflexivity.
Qed.

Lemma shape_update_comm k1 n1 k2 n2 shape :
  shape_update k1 n1 (shape_update k2 n2 shape)
  = shape_update k2 n2 (shape_update k1 n1 shape).
Proof.
  unfold shape_update.
  destruct (shape.1.1.1.1.1.1 =? n1) eqn:H1, (shape.1.1.1.1.1.1 =? n2) eqn:H2;
    cbn [fst snd]; rewrite ?H1, ?H2; try reflexivity.
  f_equal. rewrite !(assoc_L (∪)), (comm_L (∪) {[ k1 ]}). reflexivity.
Qed.

Lemma shape_step_comm shapes a b :
  shape_step (shape_step shapes a) b = shape_step (shape_step shapes b) a.
Proof.
  unfold shape_step.
  destruct (update_of a) as [[[n1 k1]|]|], (update_of b) as [[[n2 k2]|]|];
    try reflexivity.
  rewrite !map_map. apply map_ext. intros shape. apply shape_update_comm.
Qed.

Lemma shape_steps_permutation alert_ids alert_ids' :
  Permutation alert_ids alert_ids' ->
  forall shapes,
    fold_left shape_step alert_ids shapes
    = fold_left shape_step alert_ids' shapes.
Proof.
  induction 1 as [|a ids ids' _ IH|a b ids|ids1 ids2 ids3 _ IH1 _ IH2];
    intros shapes; simpl.
  - reflexivity.
  - apply IH.
  - rewrite shape_step_comm. reflexivity.
  - rewrite IH1. apply IH2.
Qed.

Lemma update_acknowledged_comm k1 k2 v n1 n2 table :
  update_acknowledged {[ k1 := v ]} n1 (update_acknowledged {[ k2 := v ]} n2 table)
  = update_acknowledged {[ k2 := v ]} n2 (update_acknowledged {[ k1 := v ]} n1 table).
Proof.
  unfold update_acknowledged. rewrite !map_map. apply map_ext. intros r.
  destruct (Inventory.id r =? n1) eqn:H1, (Inventory.id r =? n2) eqn:H2;
    rewrite ?set_acknowledged_insert; simpl; rewrite ?H1, ?H2;
    rewrite ?set_acknowledged_insert; try reflexivity.
  unfold with_acknowledged; simpl. do 2 f_equal.
  destruct (decide (k1 = k2)) as [->|Hne]; [reflexivity|].
  apply insert_insert_ne, Hne.
Qed.

(** The UPDATE of an id, stamped with a given value. *)
Lemma acknowledge_steps_stamped value now alert_ids :
  (forall k, isoformat (now k) = value) ->
  forall k table,
    acknowledge_steps now k alert_ids table
    = fold_left (fun table alert_id =>
                   match update_of alert_id with
                   | Ok (Some (n, key)) =>
                       update_acknowledged {[ key := value ]} n table
                   | _ => table
                   end) alert_ids table.
Proof.
  intros Hvalue.
  induction alert_ids as [|alert_id rest IH]; intros k table; [reflexivity|].
  cbn [acknowledge_steps fold_left].
  destruct (update_of alert_id) as [[[n key]|]|]; rewrite IH, ?Hvalue;
    reflexivity.
Qed.

Lemma stamped_steps_permutation value alert_ids alert_ids' :
  Permutation alert_ids alert_ids' ->
  forall table : list Inventory.row,
    fold_left (fun table alert_id =>
                 match update_of alert_id with
                 | Ok (Some (n, key)) =>
                     update_acknowledged {[ key := value ]} n table
                 | _ => table
                 end) alert_ids table
    = fold_left (fun table alert_id =>
                   match update_of alert_id with
                   | Ok (Some (n, key)) =>
                       update_acknowledged {[ key := value ]} n table
                   | _ => table
                   end) alert_ids' table.
Proof.
  induction 1 as [|a ids ids' _ IH|a b ids|ids1 ids2 ids3 _ IH1 _ IH2];
    intros table; simpl.
  - reflexivity.
  - apply IH.
  - f_equal.
    destruct (update_of a) as [[[n1 k1]|]|], (update_of b) as [[[n2 k2]|]|];
      try reflexivity.
    apply update_acknowledged_comm.
  - rewrite IH1. apply IH2.
Qed.

Lemma readable_permutation alert_ids alert_ids' :
  Permutation alert_ids alert_ids' ->
  forallb readable alert_ids = forallb readable alert_ids'.
Proof.
  induction 1 as [|a ids ids' _ IH|a b ids|ids1 ids2 ids3 _ IH1 _ IH2]; simpl.
  - reflexivity.
  - rewrite IH. reflexivity.
  - destruct (readable a), (readable b); reflexivity.
  - rewrite IH1. exact IH2.
Qed.

Lemma accepted_permutation fault alert_ids alert_ids' :
  Permutation alert_ids alert_ids' ->
  accepted fault alert_ids = accepted fault alert_ids'.
Proof.
  intros Hperm. unfold accepted. destruct fault as [n|]; [|reflexivity].
  assert (Hlen : length (acknowledged_records alert_ids)
                 = length (acknowledged_records alert_ids')).
  { apply Permutation_length. unfold acknowledged_records.
    apply omap_Permutation, Hperm. }
  rewrite Hlen. reflexivity.
Qed.

(** The UPDATE statements of one call are stamped one after the other, so
    the order of the ids decides which timestamp a record gets. *)
Example acknowledge_order_changes_timestamps :
  let db := store [expired_7; expiring_2] in
  acknowledged_at "expired_acknowledged"
    (snd (acknowledge_alerts true None ticking ["expired_7"; "expired_2"] db))
  = [Some "2024-06-01T09:00:00.250000"; Some "2024-06-01T09:05:00.750000"] /\
  acknowledged_at "expired_acknowledged"
    (snd (acknowledge_alerts true None ticking ["expired_2"; "expired_7"] db))
  = [Some "2024-06-01T09:05:00.750000"; Some "2024-06-01T09:00:00.250000"].
Proof. split; vm_compute; reflexivity. Qed.

(** The order of the ids matters to the timestamps only. Two lists with
    the same ids, each as many times, give the same answer and leave the
    same records with the same acknowledgment keys, whether the store is
    reachable or not, whatever number of UPDATE statements it accepts and
    whatever the clocks of the two calls read; when every reading shows
    the same timestamp they leave the same store. *)
Theorem acknowledge_order_irrelevant (reachable : bool) (fault : option nat)
  (now now' : nat -> clock) (alert_ids alert_ids' : list string)
  (db : database) :
  Permutation alert_ids alert_ids' ->
  let answer := acknowledge_alerts reachable fault now alert_ids db in
  let answer' := acknowledge_alerts reachable fault now' alert_ids' db in
  fst answer = fst answer' /\
  alert_settings_table (snd answer) = alert_settings_table (snd answer') /\
  map acknowledged_shape (inventory (snd answer))
  = map acknowledged_shape (inventory (snd answer')) /\
  ((forall k k', isoformat (now k) = isoformat (now' k')) -> answer = answer').
Proof.
  intros Hperm. cbv zeta. rewrite !acknowledge_alerts_outcome.
  rewrite <- (readable_permutation _ _ Hperm), <- (accepted_permutation _ _ _ Hperm).
  destruct (reachable && forallb readable alert_ids && accepted fault alert_ids);
    cbn [fst snd inventory alert_settings_table]; [|repeat split].
  split; [reflexivity|]. split; [reflexivity|]. split.
  - rewrite !acknowledge_steps_shape. apply shape_steps_permutation, Hperm.
  - intros Hsame. do 2 f_equal.
    rewrite (acknowledge_steps_stamped (isoformat (now 0%nat)) now)
      by (intros k; rewrite (Hsame k 0%nat), (Hsame 0%nat 0%nat); reflexivity).
    rewrite (acknowledge_steps_stamped (isoformat (now 0%nat)) now')
      by (intros k; rewrite (Hsame 0%nat k); reflexivity).
    apply stamped_steps_permutation, Hperm.
Qed.

Lemma acknowledge_order_irrelevant_witness :
  Permutation ["expired_7"; "bogus"; "late_2"] ["late_2"; "expired_7"; "bogus"] /\
  map acknowledged_shape
    (inventory (snd (acknowledge_alerts true (Some 2%nat) ticking
                       ["expired_7"; "bogus"; "late_2"]
                       (store [expired_7; expiring_2]))))
  = map acknowledged_shape
      (inventory (snd (acknowledge_alerts true (Some 2%nat) ticking
                         ["late_2"; "expired_7"; "bogus"]
                         (store [expired_7; expiring_2])))) /\
  acknowledge_alerts true (Some 2%nat) (frozen june_1)
    ["expired_7"; "bogus"; "late_2"] (store [expired_7; expiring_2])
  = acknowledge_alerts true (Some 2%nat) (frozen june_1)
      ["late_2"; "expired_7"; "bogus"] (store [expired_7; expiring_2]).
Proof.
  assert (Hperm : Permutation ["expired_7"; "bogus"; "late_2"]
                              ["late_2"; "expired_7"; "bogus"]).
  { symmetry.
    change (Permutation ("late_2" :: ["expired_7"; "bogus"])
                        (["expired_7"; "bogus"] ++ "late_2" :: [])).
    apply Permutation_cons_app. rewrite app_nil_r. reflexivity. }
  split; [exact Hperm|]. split.
  - exact (proj1 (proj2 (proj2
             (acknowledge_order_irrelevant true (Some 2%nat) ticking ticking
                _ _ (store [expired_7; expiring_2]) Hperm)))).
  - apply (proj2 (proj2 (proj2
             (acknowledge_order_irrelevant true (Some 2%nat)
                (frozen june_1) (frozen june_1) _ _
                (store [expired_7; expiring_2]) Hperm)))).
    reflexivity.
Defined.

(** ** Record numbers in alert ids *)

Lemma int_of_digits_acc d p :
  int_of_digits (Z.pos p) (NilEmpty.string_of_uint d)
  = Z.pos (Pos.of_uint_acc d p).
Proof.
  revert p. induction d as [|d IH|d IH|d IH|d IH|d IH|d IH|d IH|d IH|d IH|d IH];
    intros p; [reflexivity|..];
    cbn [NilEmpty.string_of_uint int_of_digits Pos.of_uint_acc];
    rewrite <- IH; f_equal;
    repeat match goal with
           | |- context [nat_of_ascii ?c] =>
               let v := eval vm_compute in (nat_of_ascii c) in
               change (nat_of_ascii c) with v
           end;
    lia.
Qed.

Lemma int_of_digits_uint d :
  int_of_digits 0 (NilEmpty.string_of_uint d) = Z.of_N (Pos.of_uint d).
Proof.
  induction d as [|d IH|d IH|d IH|d IH|d IH|d IH|d IH|d IH|d IH|d IH];
    [reflexivity | exact IH |..];
    cbn [NilEmpty.string_of_uint int_of_digits Pos.of_uint N.of_uint Z.of_N];
    simpl Z.add; apply int_of_digits_acc.
Qed.

Lemma all_decimal_uint d : all_decimal (NilEmpty.string_of_uint d) = true.
Proof. induction d; simpl; auto. Qed.

Lemma all_decimal_all_digits s : all_decimal s = true -> all_digits s = true.
Proof.
  induction s as [|c s IH]; [reflexivity|].
  cbn [all_decimal all_digits]. intros [Hc Hs]%andb_prop.
  unfold is_digit_char. rewrite Hc, (IH Hs). reflexivity.
Qed.

Lemma str_of_Z_decimal n : 0 <= n -> all_decimal (str_of_Z n) = true.
Proof.
  intros Hn. destruct n as [|p|p]; [reflexivity | | lia].
  unfold str_of_Z, Z.to_int, NilZero.string_of_int, NilZero.string_of_uint.
  pose proof (all_decimal_uint (Pos.to_uint p)) as Hall.
  destruct (Pos.to_uint p); [reflexivity|..]; exact Hall.
Qed.

Lemma str_of_Z_nonempty n : str_of_Z n <> "".
Proof.
  destruct n as [|p|p]; [discriminate | | discriminate].
  unfold str_of_Z, Z.to_int, NilZero.string_of_int, NilZero.string_of_uint.
  destruct (Pos.to_uint p); discriminate.
Qed.

Lemma str_of_Z_digits n : 0 <= n -> isdigit (str_of_Z n) = true.
Proof.
  intros Hn. pose proof (str_of_Z_nonempty n) as Hnonempty.
  pose proof (all_decimal_all_digits _ (str_of_Z_decimal n Hn)) as Hall.
  unfold isdigit. destruct (str_of_Z n); [congruence | exact Hall].
Qed.

Lemma int_of_digits_str_of_Z n : 0 <= n -> int_of_digits 0 (str_of_Z n) = n.
Proof.
  intros Hn. destruct n as [|p|p]; [reflexivity | | lia].
  unfold str_of_Z, Z.to_int, NilZero.string_of_int, NilZero.string_of_uint.
  pose proof (DecimalPos.Unsigned.to_uint_nonnil p) as Hnil.
  pose proof (int_of_digits_uint (Pos.to_uint p)) as Hval.
  rewrite DecimalPos.Unsigned.of_to in Hval.
  destruct (Pos.to_uint p); [congruence|..]; exact Hval.
Qed.

(** [int(str(n)) = n] for a number that is not negative, as long as its
    text is within the limit of [int]. *)
Lemma int_of_str_of_Z n :
  0 <= n ->
  int_of_str (str_of_Z n)
  = if (String.length (str_of_Z n) <=? int_max_str_digits)%nat
    then Ok n else Raise.
Proof.
  intros Hn. pose proof (str_of_Z_nonempty n) as Hnonempty.
  pose proof (str_of_Z_decimal n Hn) as Hdecimal.
  pose proof (int_of_digits_str_of_Z n Hn) as Hvalue.
  unfold int_of_str.
  destruct (str_of_Z n) as [|c s]; [congruence|].
  rewrite Hdecimal, Hvalue. reflexivity.
Qed.

Lemma str_of_Z_inj a b : str_of_Z a = str_of_Z b -> a = b.
Proof.
  unfold str_of_Z. intros Heq.
  assert (Hnil : forall z, Z.to_int z <> Decimal.Pos Decimal.Nil /\
                           Z.to_int z <> Decimal.Neg Decimal.Nil).
  { intros [|p|p]; simpl; split; try discriminate;
      intros [= H]; exact (DecimalPos.Unsigned.to_uint_nonnil p H). }
  pose proof (f_equal NilZero.int_of_string Heq) as Hint.
  rewrite !NilZero.isi in Hint by apply Hnil.
  injection Hint as Hint.
  rewrite <- (DecimalZ.of_to a), <- (DecimalZ.of_to b), Hint. reflexivity.
Qed.

Lemma split_once_fresh c a b :
  contains_char c a = false -> split_once c (a +:+ String c b) = (a, b).
Proof.
  induction a as [|d a IH].
  - simpl. rewrite Ascii.eqb_refl. reflexivity.
  - change (String d a +:+ String c b) with (String d (a +:+ String c b)).
    cbn [contains_char split_once].
    destruct (Ascii.eqb c d); [discriminate|].
    intros Hfresh. rewrite (IH Hfresh). reflexivity.
Qed.

Lemma split_once_early c a x :
  contains_char c a = true ->
  split_once c (a +:+ x) = (fst (split_once c a), snd (split_once c a) +:+ x).
Proof.
  induction a as [|d a IH]; [discriminate|].
  change (String d a +:+ x) with (String d (a +:+ x)).
  cbn [contains_char split_once].
  destruct (Ascii.eqb c d); [reflexivity|].
  intros Hin. rewrite (IH Hin).
  destruct (split_once c a); reflexivity.
Qed.

Lemma contains_char_app_r c a b :
  contains_char c b = true -> contains_char c (a +:+ b) = true.
Proof.
  intros Hb. induction a as [|d a IH]; [exact Hb|].
  change (String d a +:+ b) with (String d (a +:+ b)).
  cbn [contains_char]. destruct (Ascii.eqb c d); [reflexivity | exact IH].
Qed.

Lemma split_once_before c s : contains_char c (fst (split_once c s)) = false.
Proof.
  induction s as [|d s IH]; [reflexivity|].
  cbn [split_once]. destruct (Ascii.eqb c d) eqn:Hcd; [reflexivity|].
  destruct (split_once c s) as [before after]. cbn [fst contains_char] in *.
  rewrite Hcd. exact IH.
Qed.

(** [int] refuses a text that passed [isdigit] when it holds a superscript
    digit or has more than 4300 characters. *)
Lemma int_of_str_raises s :
  isdigit s = true ->
  int_of_str s = Raise <->
  all_decimal s = false \/ (int_max_str_digits < String.length s)%nat.
Proof.
  intros Hdigits. unfold int_of_str.
  destruct s as [|c s]; [discriminate Hdigits|].
  destruct (all_decimal (String c s)); cbn [andb].
  - destruct (Nat.leb_spec (String.length (String c s)) int_max_str_digits)
      as [Hle|Hgt]; split; try discriminate; auto.
    intros [Hfalse|Hgt]; [discriminate | lia].
  - split; auto.
Qed.

(** The ids on which [acknowledge_alerts] fails: <class>_<digits>, without
    an underscore in the class, with digits that [isdigit] accepts and
    [int] refuses. *)
Lemma unreadable_spec alert_id :
  readable alert_id = false <->
  exists class digits,
    alert_id = class +:+ "_" +:+ digits /\
    contains_char "_" class = false /\
    isdigit digits = true /\ int_of_str digits = Raise.
Proof.
  unfold readable, update_of. split.
  - destruct (contains_char "_" alert_id) eqn:Hin; [|discriminate].
    pose proof (contains_char_split _ _ Hin) as Hsplit.
    pose proof (split_once_before "_" alert_id) as Hfresh.
    destruct (split_once "_" alert_id) as [class digits]. cbn [fst snd] in *.
    destruct (isdigit digits) eqn:Hdigits; [|discriminate].
    destruct (int_of_str digits) eqn:Hint; [discriminate|].
    intros _. exists class, digits. repeat split; assumption.
  - intros (class & digits & -> & Hfresh & Hdigits & Hint).
    change (class +:+ "_" +:+ digits) with (class +:+ String "_" digits).
    rewrite contains_char_append, (split_once_fresh _ _ _ Hfresh).
    cbn [fst snd]. rewrite Hdigits, Hint. reflexivity.
Qed.

(** How an id names its record. For a class text without an underscore
    and a record number that is not negative, the id <class>_<number>
    makes [acknowledge_alerts] update exactly that record, under the key
    <class>_acknowledged, as long as the number has at most 4300 digits:
    the number survives the trip through its decimal text. A longer
    number makes [int] raise. For a class text that has an underscore of
    its own, such as expiring_critical or expiring_warning, the id is
    passed over whatever follows. *)
Theorem alert_id_names_its_record (now : clock) (class : string) :
  (contains_char "_" class = false ->
   forall n, 0 <= n ->
     acknowledgment_of now (class +:+ "_" +:+ str_of_Z n)
     = if (String.length (str_of_Z n) <=? int_max_str_digits)%nat
       then Ok (Some (n, {[ class +:+ "_acknowledged" := isoformat now ]}))
       else Raise) /\
  (contains_char "_" class = true ->
   forall rest, acknowledgment_of now (class +:+ "_" +:+ rest) = Ok None).
Proof.
  split.
  - intros Hfresh n Hn. unfold acknowledgment_of.
    change (class +:+ "_" +:+ str_of_Z n) with (class +:+ String "_" (str_of_Z n)).
    rewrite contains_char_append, (split_once_fresh _ _ _ Hfresh).
    rewrite (str_of_Z_digits n Hn), (int_of_str_of_Z n Hn).
    destruct (String.length (str_of_Z n) <=? int_max_str_digits)%nat;
      reflexivity.
  - intros Hin rest. unfold acknowledgment_of.
    change (class +:+ "_" +:+ rest) with (class +:+ String "_" rest).
    rewrite contains_char_append, (split_once_early _ _ _ Hin).
    destruct (split_once "_" class) as [before after]. cbn [fst snd].
    destruct (isdigit (after +:+ String "_" rest)) eqn:Hdigits; [|reflexivity].
    apply isdigit_all_digits, all_digits_no_underscore in Hdigits.
    rewrite contains_char_app_r in Hdigits by (simpl; reflexivity).
    discriminate.
Qed.

Lemma alert_id_names_its_record_witness :
  contains_char "_" "expired" = false /\ 0 <= 7 /\
  contains_char "_" "expiring_critical" = true /\
  acknowledgment_of june_1 ("expired" +:+ "_" +:+ str_of_Z 7)
  = Ok (Some (7, {[ "expired_acknowledged" := isoformat june_1 ]})) /\
  acknowledgment_of june_1 ("expiring_critical" +:+ "_" +:+ str_of_Z 7) = Ok None.
Proof.
  split; [reflexivity|]. split; [lia|]. split; [reflexivity|]. split.
  - apply (proj1 (alert_id_names_its_record june_1 "expired") eq_refl 7). lia.
  - apply (proj2 (alert_id_names_its_record june_1 "expiring_critical") eq_refl).
Defined.

Lemma append_inj (p a b : string) : p +:+ a = p +:+ b -> a = b.
Proof.
  induction p as [|c p IH]; [auto|].
  change (String c (p +:+ a) = String c (p +:+ b) -> a = b).
  intros [= H]. exact (IH H).
Qed.

Lemma NoDup_by_id (rows : list Inventory.row) r r' :
  NoDup (map Inventory.id rows) -> r ∈ rows -> r' ∈ rows ->
  Inventory.id r = Inventory.id r' -> r = r'.
Proof.
  induction rows as [|x rows IH]; intros Hnodup Hr Hr' Hid; [inversion Hr|].
  simpl in Hnodup. apply NoDup_cons in Hnodup as [Hfresh Hnodup].
  apply elem_of_cons in Hr as [->|Hr]; apply elem_of_cons in Hr' as [->|Hr'].
  - reflexivity.
  - exfalso. apply Hfresh. rewrite Hid. apply list_elem_of_fmap. eauto.
  - exfalso. apply Hfresh. rewrite <- Hid. apply list_elem_of_fmap. eauto.
  - apply IH; assumption.
Qed.

Lemma expiring_ids_distinct now prefix severity cond cur :
  NoDup (map Inventory.id cur) ->
  NoDup (map Alert.id
             (map (expiring_alert_of now prefix severity) (sql_where cond cur))).
Proof.
  intros Hnodup. rewrite map_map. apply NoDup_fmap_2_strong.
  - intros r r' Hr Hr' Heq. simpl in Heq.
    apply append_inj, str_of_Z_inj in Heq.
    apply elem_of_sql_where in Hr as [Hr _].
    apply elem_of_sql_where in Hr' as [Hr' _].
    exact (NoDup_by_id cur r r' Hnodup Hr Hr' Heq).
  - unfold sql_where. apply NoDup_ListNoDup, List.NoDup_filter, NoDup_ListNoDup.
    eapply NoDup_fmap_1. exact Hnodup.
Qed.

(** When the records have distinct numbers, as the primary key makes them,
    the expiry alerts of an evaluation have distinct ids: an id stands
    for one alert of one record. *)
Theorem expiry_alert_ids_distinct (now : clock) (cur : list Inventory.row)
  (s : alert_settings) :
  NoDup (map Inventory.id cur) ->
  NoDup (map Alert.id (check_expiry_alerts now cur s)).
Proof.
  intros Hnodup.
  destruct (check_expiry_alerts_cases now cur s) as [-> | ->];
    [constructor|].
  rewrite map_app.
  apply NoDup_app. split; [apply expiring_ids_distinct, Hnodup|].
  split; [|apply expiring_ids_distinct, Hnodup].
  intros alert_id Hcrit Hwarn.
  rewrite map_map in Hcrit, Hwarn.
  apply list_elem_of_fmap in Hcrit as (r & -> & _).
  apply list_elem_of_fmap in Hwarn as (r' & Heq & _).
  simpl in Heq.
  change ("expiring_critical_" +:+ str_of_Z (Inventory.id r))
    with ("expiring_" +:+ String "c" ("ritical_" +:+ str_of_Z (Inventory.id r)))
    in Heq.
  change ("expiring_warning_" +:+ str_of_Z (Inventory.id r'))
    with ("expiring_" +:+ String "w" ("arning_" +:+ str_of_Z (Inventory.id r')))
    in Heq.
  apply append_inj in Heq. discriminate Heq.
Qed.

Lemma expiry_alert_ids_distinct_witness :
  NoDup (map Inventory.id [expiring_2; expiring_42]) /\
  NoDup (map Alert.id (check_expiry_alerts june_1 [expiring_2; expiring_42]
                         get_default_alert_settings)).
Proof.
  assert (Hnodup : NoDup (map Inventory.id [expiring_2; expiring_42])).
  { simpl. apply NoDup_cons. split; [|apply NoDup_singleton].
    intros Hin. apply list_elem_of_singleton in Hin. discriminate Hin. }
  split; [exact Hnodup|].
  exact (expiry_alert_ids_distinct june_1 _ get_default_alert_settings Hnodup).
Defined.

(** * Further properties of the settings store *)

Lemma latest_last rows r :
  Forall (fun x => updated_at x < updated_at r) rows ->
  latest (rows ++ [r]) = Some r.
Proof.
  induction 1 as [|x rows Hx _ IH]; simpl; [reflexivity|].
  rewrite IH. apply Z.ltb_lt in Hx. rewrite Hx. reflexivity.
Qed.

Lemma get_after_save now username saved db rows :
  alert_settings_table db = Some rows ->
  Forall (fun r => updated_at r < timestamp now) rows ->
  fst (get_alert_settings true
         (snd (save_alert_settings true now username saved db))) = saved.
Proof.
  intros Htable Holder.
  unfold save_alert_settings, get_db_connection, insert_settings, close, commit.
  rewrite Htable. simpl.
  unfold get_alert_settings, get_db_connection, create_alert_settings_table.
  simpl. rewrite latest_last by exact Holder. reflexivity.
Qed.

(** Saving and reading back. When the store is reachable, the
    alert_settings table exists and every row in it is older than the
    save, [save_alert_settings] returns True, appends one row with the
    user's name and leaves the earlier rows and the inventory as they
    were, and [get_alert_settings] then returns exactly the dict that was
    saved. *)
Theorem saved_settings_become_current (now : clock) (username : string)
  (saved : alert_settings) (db : database) (rows : list settings_row) :
  alert_settings_table db = Some rows ->
  Forall (fun r => updated_at r < timestamp now) rows ->
  let answer := save_alert_settings true now username saved db in
  fst answer = true /\
  inventory (snd answer) = inventory db /\
  alert_settings_table (snd answer)
  = Some (rows ++ [ {| settings := saved; updated_by := username;
                       updated_at := timestamp now |} ]) /\
  fst (get_alert_settings true (snd answer)) = saved.
Proof.
  intros Htable Holder. cbv zeta.
  split; [|split; [|split]].
  - unfold save_alert_settings, get_db_connection, insert_settings.
    rewrite Htable. reflexivity.
  - apply save_alert_settings_inventory.
  - unfold save_alert_settings, get_db_connection, insert_settings, close, commit.
    rewrite Htable. reflexivity.
  - apply (get_after_save now username saved db rows Htable Holder).
Qed.

Lemma saved_settings_become_current_witness :
  fst (get_alert_settings true
         (snd (save_alert_settings true june_1_later "admin" stock_alerts_off
                 (snd (save_alert_settings true june_1 "admin"
                         get_default_alert_settings (store []))))))
  = stock_alerts_off.
Proof.
  refine (proj2 (proj2 (proj2
            (saved_settings_become_current june_1_later "admin" stock_alerts_off
               (snd (save_alert_settings true june_1 "admin"
                       get_default_alert_settings (store [])))
               [ {| settings := get_default_alert_settings;
                    updated_by := "admin"; updated_at := timestamp june_1 |} ]
               eq_refl _)))).
  constructor; [simpl; lia | constructor].
Defined.

Lemma acknowledge_alerts_settings_table reachable fault now alert_ids db :
  alert_settings_table (snd (acknowledge_alerts reachable fault now alert_ids db))
  = alert_settings_table db.
Proof.
  unfold acknowledge_alerts, get_db_connection, close, commit, rollback.
  destruct reachable; [|reflexivity].
  destruct (acknowledge_loop _ _ _ _ _); reflexivity.
Qed.

Lemma run_settings_table db o :
  exists added,
    alert_settings_table (run db o)
    = (fun rows => rows ++ added) <$> alert_settings_table db.
Proof.
  destruct o; simpl.
  - exists []. rewrite get_current_alerts_store.
    destruct (alert_settings_table db); simpl; rewrite ?app_nil_r; reflexivity.
  - exists []. rewrite acknowledge_alerts_settings_table.
    destruct (alert_settings_table db); simpl; rewrite ?app_nil_r; reflexivity.
  - exists []. rewrite get_alert_settings_store.
    destruct (alert_settings_table db); simpl; rewrite ?app_nil_r; reflexivity.
  - unfold save_alert_settings, get_db_connection, insert_settings,
      close, commit, rollback.
    destruct reachable; simpl.
    + destruct (alert_settings_table db) as [rows|] eqn:Htable; simpl.
      * eexists. reflexivity.
      * exists []. rewrite Htable. reflexivity.
    + exists []. destruct (alert_settings_table db); simpl;
        rewrite ?app_nil_r; reflexivity.
  - exists []. rewrite send_alert_summary_email_store.
    destruct (alert_settings_table db); simpl; rewrite ?app_nil_r; reflexivity.
Qed.

(** The settings history is append-only. Over every sequence of engine
    operations the alert_settings table keeps the rows it had, in their
    order, with new rows only after them; and a table that does not exist
    is not created by any of them. *)
Theorem settings_history_append_only (db : database) (ops : list operation) :
  exists added,
    alert_settings_table (run_all db ops)
    = (fun rows => rows ++ added) <$> alert_settings_table db.
Proof.
  unfold run_all. revert db.
  induction ops as [|o ops IH]; intros db; simpl.
  - exists []. destruct (alert_settings_table db); simpl;
      rewrite ?app_nil_r; reflexivity.
  - destruct (IH (run db o)) as [added2 H2].
    destruct (run_settings_table db o) as [added1 H1].
    exists (added1 ++ added2). rewrite H2, H1.
    destruct (alert_settings_table db); simpl; [|reflexivity].
    rewrite app_assoc. reflexivity.
Qed.

Lemma run_all_missing_table db ops :
  alert_settings_table db = None ->
  alert_settings_table (run_all db ops) = None.
Proof.
  unfold run_all. revert db.
  induction ops as [|o ops IH]; intros db Hmissing; simpl; [exact Hmissing|].
  apply IH. destruct (run_settings_table db o) as [added Hrun].
  rewrite Hrun, Hmissing. reflexivity.
Qed.

(** On a database where the alert_settings table does not exist, no
    sequence of engine operations brings it into being, the CREATE TABLE of
    [get_alert_settings] included, since that statement is never
    committed: after any such sequence every [save_alert_settings] still
    returns False and changes nothing, and [get_alert_settings] still
    returns the defaults. *)
Theorem settings_cannot_be_saved_without_table (db : database)
  (ops : list operation) (reachable : bool) (now : clock) (username : string)
  (saved : alert_settings) :
  alert_settings_table db = None ->
  save_alert_settings reachable now username saved (run_all db ops)
  = (false, run_all db ops) /\
  fst (get_alert_settings reachable (run_all db ops)) = get_default_alert_settings.
Proof.
  intros Hmissing.
  pose proof (run_all_missing_table db ops Hmissing) as Htable.
  unfold save_alert_settings, get_alert_settings, get_db_connection,
    insert_settings, create_alert_settings_table, close, rollback.
  destruct reachable; [|split; reflexivity].
  rewrite Htable. split; reflexivity.
Qed.

Lemma settings_cannot_be_saved_without_table_witness :
  alert_settings_table
    {| inventory := [expiring_2]; alert_settings_table := None |} = None /\
  fst (save_alert_settings true june_1_later "admin" stock_alerts_off
         (run_all {| inventory := [expiring_2]; alert_settings_table := None |}
                  [GetSettings true; Evaluate true june_1]))
  = false.
Proof.
  split; [reflexivity|].
  rewrite (proj1 (settings_cannot_be_saved_without_table
                    {| inventory := [expiring_2]; alert_settings_table := None |}
                    [GetSettings true; Evaluate true june_1]
                    true june_1_later "admin" stock_alerts_off eq_refl)).
  reflexivity.
Defined.

(** * Further properties of the notifications *)

Lemma length_split_all c s : length (split_all c s) = S (count_char c s).
Proof.
  induction s as [|d s IH]; [reflexivity|].
  cbn [split_all count_char].
  destruct (split_all c s) as [|piece pieces]; [discriminate IH|].
  destruct (Ascii.eqb c d); simpl in *; lia.
Qed.

Lemma summary_email_recipients reachable now alerts db :
  map recipient (fst (send_alert_summary_email reachable now alerts db))
  = recipients_of (fst (get_alert_settings reachable db)).
Proof.
  unfold send_alert_summary_email, recipients_of.
  destruct (get_alert_settings reachable db) as [s d]. simpl.
  destruct (_ || _); [reflexivity|].
  destruct (summarize now alerts). simpl. rewrite map_map. simpl.
  rewrite map_id. reflexivity.
Qed.

(** Who gets the alert summary. No e-mail is sent unless the current
    settings enable e-mail notifications and name recipients, so none
    with an unreachable store, where the defaults apply. Otherwise one
    e-mail goes out for each comma-separated piece of the recipients text,
    one more than it has commas and empty pieces included, each from
    inventory-alerts@system.com with the subject and content of the
    summary, also when the alert list is empty. The store is not written. *)
Theorem summary_email_per_recipient (reachable : bool) (now : clock)
  (alerts : list Alert.t) (db : database) :
  let s := fst (get_alert_settings reachable db) in
  let sent := fst (send_alert_summary_email reachable now alerts db) in
  length sent
  = (if get (enable_email_notifications s) false
        && negb (String.eqb (get (notification_recipients s) "") "")
     then S (count_char "," (get (notification_recipients s) ""))
     else 0%nat) /\
  Forall (fun m => sender m = "inventory-alerts@system.com" /\
                   (subject m, content m) = summarize now alerts) sent /\
  fst (send_alert_summary_email false now alerts db) = [] /\
  snd (send_alert_summary_email reachable now alerts db) = db.
Proof.
  cbv zeta. split; [|split; [|split]].
  - rewrite <- (length_map recipient), summary_email_recipients.
    unfold recipients_of.
    destruct (get (enable_email_notifications _) false); simpl; [|reflexivity].
    destruct (String.eqb _ ""); simpl; [reflexivity|].
    rewrite length_map. apply length_split_all.
  - unfold send_alert_summary_email.
    destruct (get_alert_settings reachable db) as [s d].
    destruct (_ || _); [constructor|].
    destruct (summarize now alerts) as [subj body]. cbn [fst].
    apply Forall_fmap, Forall_forall. intros r _. split; reflexivity.
  - reflexivity.
  - apply send_alert_summary_email_store.
Qed.

Lemma prefix_refl_app a b : String.prefix a (a +:+ b) = true.
Proof.
  induction a as [|c a IH]; [destruct b; reflexivity|].
  change (String c a +:+ b) with (String c (a +:+ b)).
  cbn [String.prefix]. destruct (ascii_dec c c); [exact IH | congruence].
Qed.

Lemma substring_in_app_r needle a b :
  substring_in needle b = true -> substring_in needle (a +:+ b) = true.
Proof.
  intros Hb. induction a as [|c a IH]; [exact Hb|].
  change (String c a +:+ b) with (String c (a +:+ b)).
  cbn [substring_in]. rewrite IH. apply orb_true_r.
Qed.

Lemma substring_in_here needle b : substring_in needle (needle +:+ b) = true.
Proof.
  destruct (needle +:+ b) eqn:Heq; cbn [substring_in];
    rewrite <- Heq, prefix_refl_app; reflexivity.
Qed.

Lemma substring_in_middle a needle b :
  substring_in needle (a +:+ needle +:+ b) = true.
Proof. apply substring_in_app_r, substring_in_here. Qed.

(** The test notification goes to the recipients that the alert summary
    goes to, under the same conditions, with its own fixed subject, and
    leaves the store as it is. *)
Theorem test_notification_same_recipients (reachable : bool) (now : clock)
  (username : string) (alerts : list Alert.t) (db : database) :
  map recipient (fst (send_test_notification reachable now username db))
  = map recipient (fst (send_alert_summary_email reachable now alerts db)) /\
  Forall (fun m => sender m = "inventory-alerts@system.com" /\
                   subject m = "Inventory Alert System - Test Notification" /\
                   substring_in username (content m) = true)
         (fst (send_test_notification reachable now username db)) /\
  snd (send_test_notification reachable now username db) = db.
Proof.
  rewrite summary_email_recipients.
  unfold send_test_notification, recipients_of.
  pose proof (get_alert_settings_store reachable db) as Hstore.
  destruct (get_alert_settings reachable db) as [s d]. simpl in *. subst d.
  destruct (_ || _); [repeat split; constructor|].
  simpl. rewrite map_map. simpl. rewrite map_id.
  split; [reflexivity|]. split; [|reflexivity].
  apply Forall_fmap, Forall_forall. intros r _. cbn [sender subject content].
  split; [reflexivity|]. split; [reflexivity|].
  do 12 apply substring_in_app_r. apply substring_in_here.
Qed.

(** * Further properties of the pages *)

Lemma evaluated_alert_kinds reachable now db :
  Forall (fun a =>
            Alert.alert_type a = "Expiring Soon" /\
            is_Some (Alert.days_until_expiry a) /\
            (Alert.severity a = "Critical" \/ Alert.severity a = "Warning") \/
            Alert.alert_type a = "Low Stock" /\
            Alert.days_until_expiry a = None /\
            (Alert.severity a = "Warning" \/ Alert.severity a = "Info"))
         (fst (get_current_alerts reachable now db)).
Proof.
  unfold get_current_alerts, get_db_connection.
  destruct reachable; [|constructor].
  destruct (get_alert_settings true db) as [s d]. simpl.
  apply Forall_app. split.
  - eapply Forall_impl; [apply expiry_alert_kinds|]. intros a Ha. left. exact Ha.
  - eapply Forall_impl; [apply stock_alert_kinds|]. intros a Ha. right. exact Ha.
Qed.

Lemma severity_tables_partition alerts :
  Forall (fun a => Alert.severity a = "Critical" \/ Alert.severity a = "Warning"
                   \/ Alert.severity a = "Info") alerts ->
  Permutation alerts
    (with_severity "Critical" alerts ++ with_severity "Warning" alerts
     ++ with_severity "Info" alerts).
Proof.
  unfold with_severity.
  induction 1 as [|a alerts Hsev _ IH]; simpl; [constructor|].
  destruct Hsev as [-> | [-> | ->]]; simpl.
  - constructor. exact IH.
  - apply Permutation_cons_app. exact IH.
  - rewrite app_assoc. apply Permutation_cons_app. rewrite <- app_assoc. exact IH.
Qed.

(** With the default selection of alert types the Active Alerts page
    shows every alert of the evaluation, each in exactly one of the three
    severity tables, and shows the all-clear only when there is none; the
    options "Expired" and "Out of Stock" of the filter match no alert that
    an evaluation returns. *)
Theorem active_alerts_page_shows_every_alert (reachable : bool) (now : clock)
  (db : database) :
  let alerts := fst (get_current_alerts reachable now db) in
  filtered_alerts alert_type_options alerts = alerts /\
  filtered_alerts ["Expired"; "Out of Stock"] alerts = [] /\
  show_active_alerts alert_type_options alerts
  = match alerts with
    | [] => NoActiveAlerts
    | _ => AlertTables (with_severity "Critical" alerts)
                       (with_severity "Warning" alerts)
                       (with_severity "Info" alerts)
    end /\
  Permutation alerts
    (with_severity "Critical" alerts ++ with_severity "Warning" alerts
     ++ with_severity "Info" alerts).
Proof.
  cbv zeta. pose proof (evaluated_alert_kinds reachable now db) as Hkinds.
  set (alerts := fst (get_current_alerts reachable now db)) in *.
  assert (Hall : filtered_alerts alert_type_options alerts = alerts).
  { unfold filtered_alerts. induction Hkinds as [|a l Ha _ IH]; simpl; [reflexivity|].
    rewrite IH. destruct Ha as [[-> _] | [-> _]]; reflexivity. }
  split; [exact Hall|]. split; [|split].
  - clear Hall. unfold filtered_alerts.
    induction Hkinds as [|a l Ha _ IH]; simpl; [reflexivity|].
    rewrite IH. destruct Ha as [[-> _] | [-> _]]; reflexivity.
  - unfold show_active_alerts. rewrite Hall. destruct alerts; reflexivity.
  - apply severity_tables_partition.
    eapply Forall_impl; [exact Hkinds|].
    intros a [(_ & _ & [?|?]) | (_ & _ & [?|?])]; auto.
Qed.

(** On the dashboard every alert of the evaluation is counted once as an
    expiry alert or once as a stock alert, never as both: the expiry and
    stock metrics add up to the number of alerts, the expiry metric is the
    number of points of the expiry timeline, and the Critical and Warning
    metrics together leave out exactly the Info alerts. *)
Theorem dashboard_metrics_add_up (reachable : bool) (now : clock)
  (db : database) :
  let alerts := fst (get_current_alerts reachable now db) in
  let m := dashboard_metrics alerts in
  (Dashboard.expiry_count m + Dashboard.stock_count m = length alerts)%nat /\
  Dashboard.expiry_count m = length (expiry_timeline alerts) /\
  (Dashboard.critical_count m + Dashboard.warning_count m
   + length (with_severity "Info" alerts) = length alerts)%nat.
Proof.
  cbv zeta. pose proof (evaluated_alert_kinds reachable now db) as Hkinds.
  set (alerts := fst (get_current_alerts reachable now db)) in *.
  unfold dashboard_metrics, expiry_timeline, with_severity; simpl.
  induction Hkinds as [|a l Ha _ (IH1 & IH2 & IH3)]; simpl; [auto|].
  destruct Ha as [(-> & [days ->] & Hsev) | (-> & -> & Hsev)];
    destruct Hsev as [-> | ->]; simpl; repeat split; lia.
Qed.

Lemma stock_alerts_not_critical now cur s :
  with_severity "Critical" (check_stock_alerts now cur s) = [].
Proof.
  unfold with_severity.
  induction (stock_alert_kinds now cur s) as [|a l Ha _ IH]; simpl; [reflexivity|].
  destruct Ha as (_ & _ & [-> | ->]); exact IH.
Qed.

Lemma stock_alerts_not_expiry now cur s :
  List.filter (fun a => substring_in "Expir" (Alert.alert_type a))
              (check_stock_alerts now cur s) = [].
Proof.
  induction (stock_alert_kinds now cur s) as [|a l Ha _ IH]; simpl; [reflexivity|].
  destruct Ha as (-> & _). exact IH.
Qed.

(** With one expired, unacknowledged record in the store the pages show no
    Critical alert and no expiry alert at all, whatever else is about to
    expire: the Critical table of the Active Alerts page is empty, and the
    dashboard reports 0 Critical alerts, 0 expiry alerts and an empty
    timeline. *)
Theorem expired_record_empties_critical_views (now : clock) (db : database)
  (r : Inventory.row) (e : Z) :
  r ∈ inventory db ->
  Inventory.expiration_date r = Some e ->
  e < today now ->
  "expired" ∉ keys r ->
  let alerts := fst (get_current_alerts true now db) in
  with_severity "Critical" alerts = [] /\
  Dashboard.critical_count (dashboard_metrics alerts) = 0%nat /\
  Dashboard.expiry_count (dashboard_metrics alerts) = 0%nat /\
  expiry_timeline alerts = [].
Proof.
  intros Hin Hdate Hlt Hkey. cbv zeta.
  pose proof (evaluation_with_expired_record now db r e Hin Hdate Hlt Hkey)
    as Heval.
  assert (Hline : expiry_timeline (fst (get_current_alerts true now db)) = [])
    by (rewrite Heval; apply stock_alerts_no_timeline).
  assert (Hcrit : with_severity "Critical" (fst (get_current_alerts true now db)) = [])
    by (rewrite Heval; apply stock_alerts_not_critical).
  split; [exact Hcrit|]. split; [|split].
  - unfold dashboard_metrics; simpl. rewrite Hcrit. reflexivity.
  - unfold dashboard_metrics; simpl. rewrite Heval, stock_alerts_not_expiry.
    reflexivity.
  - exact Hline.
Qed.

Lemma expired_record_empties_critical_views_witness :
  critical_condition june_1 (today june_1 + 7) expiring_2 = Some true /\
  with_severity "Critical"
    (fst (get_current_alerts true june_1 (store [expiring_2; expired_7]))) = [].
Proof.
  split; [vm_compute; reflexivity|].
  refine (proj1 (expired_record_empties_critical_views june_1
                   (store [expiring_2; expired_7]) expired_7
                   (toordinal 2024 5 31) _ eq_refl _ _)).
  - apply list_elem_of_In; simpl; auto.
  - vm_compute. reflexivity.
  - unfold keys. simpl. set_solver.
Defined.

(** Saving the settings form with e-mail notifications switched off
    forgets the recipients: the saved dict has neither the recipients nor
    the frequency key, whatever the earlier rows held, so the current
    settings afterwards name no recipient, the form would show an empty
    recipients text and "Daily" again, and no alert summary is sent. *)
Theorem disabling_notifications_forgets_recipients (now : clock)
  (username : string) (db : database) (rows : list settings_row)
  (warning_days critical_days threshold : Z) (stock_alerts : bool)
  (recipients frequency : string) :
  alert_settings_table db = Some rows ->
  Forall (fun r => updated_at r < timestamp now) rows ->
  let saved := new_settings warning_days critical_days threshold stock_alerts
                 false recipients frequency in
  let db' := snd (save_alert_settings true now username saved db) in
  let current := fst (get_alert_settings true db') in
  get (notification_recipients current) "" = "" /\
  get (notification_frequency current) "Daily" = "Daily" /\
  recipients_of current = [] /\
  forall now' alerts, fst (send_alert_summary_email true now' alerts db') = [].
Proof.
  intros Htable Holder. cbv zeta.
  pose proof (get_after_save now username
                (new_settings warning_days critical_days threshold stock_alerts
                   false recipients frequency) db rows Htable Holder)
    as Hcurrent.
  rewrite Hcurrent.
  repeat split. intros now' alerts.
  pose proof (summary_email_recipients true now' alerts
                (snd (save_alert_settings true now username
                        (new_settings warning_days critical_days threshold
                           stock_alerts false recipients frequency) db))) as Hto.
  rewrite Hcurrent in Hto. unfold recipients_of in Hto. simpl in Hto.
  destruct (fst (send_alert_summary_email _ _ _ _)); [reflexivity | discriminate Hto].
Qed.

Lemma disabling_notifications_forgets_recipients_witness :
  recipients_of
    (fst (get_alert_settings true
            (snd (save_alert_settings true june_1 "admin"
                    (new_settings 30 7 5 true true "a@x.org, b@y.org" "Weekly")
                    (store [])))))
  = ["a@x.org"; "b@y.org"] /\
  recipients_of
    (fst (get_alert_settings true
            (snd (save_alert_settings true june_1_later "admin"
                    (new_settings 30 7 5 true false "a@x.org, b@y.org" "Weekly")
                    (snd (save_alert_settings true june_1 "admin"
                            (new_settings 30 7 5 true true "a@x.org, b@y.org"
                               "Weekly")
                            (store [])))))))
  = [].
Proof.
  split; [vm_compute; reflexivity|].
  refine (proj1 (proj2 (proj2
            (disabling_notifications_forgets_recipients june_1_later "admin"
               (snd (save_alert_settings true june_1 "admin"
                       (new_settings 30 7 5 true true "a@x.org, b@y.org" "Weekly")
                       (store [])))
               [ {| settings := new_settings 30 7 5 true true "a@x.org, b@y.org"
                                  "Weekly";
                    updated_by := "admin"; updated_at := timestamp june_1 |} ]
               30 7 5 true "a@x.org, b@y.org" "Weekly" eq_refl _)))).
  constructor; [simpl; lia | constructor].
Defined.
